(** * pkg/client/client.go: the Kubernetes REST client

    A shallow embedding of [client.go]: the request pipeline
    ([doRequest], [rawRequest], [makeURL]), the label-selector codec
    ([EncodeSelector], [DecodeSelector]) and the typed methods built on
    them.  Go strings and byte slices are sequences of 8-bit bytes and
    are modelled by [string]; Go maps from string to string by
    [gmap string string]; the network, the log and the JSON codec are
    explicit (a world that is threaded through every call, and
    interfaces the client is parameterised by). *)

From Stdlib Require Import ZArith Ascii String DecimalString.
From stdpp Require Import gmap strings list fin_maps.

Local Open Scope list_scope.
Local Open Scope string_scope.

(** ** The parts of Go's standard library that client.go calls *)

Module strings.

(** [strings.Split(s, sep)] for a separator of one byte, which is how
    client.go calls it: the fields between the occurrences of [sep];
    a string without separator, the empty one included, is one field. *)
Fixpoint Split (s : string) (sep : ascii) : list string :=
  match s with
  | EmptyString => [EmptyString]
  | String c s' =>
      if Ascii.eqb c sep then EmptyString :: Split s' sep
      else match Split s' sep with
           | field :: fields => String c field :: fields
           | [] => [String c EmptyString]
           end
  end.

(** [strings.Join(a, sep)]. *)
Fixpoint Join (a : list string) (sep : string) : string :=
  match a with
  | [] => EmptyString
  | [x] => x
  | x :: rest => x ++ sep ++ Join rest sep
  end.

(** [strings.Contains(s, substr)], as a proposition. *)
Definition Contains (s substr : string) : Prop :=
  exists pre post, s = pre ++ substr ++ post.

(** The byte [c] occurs in [s]. *)
Fixpoint has_byte (c : ascii) (s : string) : bool :=
  match s with
  | EmptyString => false
  | String d s' => Ascii.eqb d c || has_byte c s'
  end.

End strings.

Module url.

Definition is_alnum (c : ascii) : bool :=
  let n := nat_of_ascii c in
  (((48 <=? n) && (n <=? 57)) || ((65 <=? n) && (n <=? 90)) || ((97 <=? n) && (n <=? 122)))%nat.

(** [shouldEscape(c, encodeQueryComponent)]: everything but the
    unreserved bytes (letters, digits, [-], [_], [.], [~]). *)
Definition shouldEscape (c : ascii) : bool :=
  if is_alnum c then false
  else if (Ascii.eqb c "-" || Ascii.eqb c "_" || Ascii.eqb c "." || Ascii.eqb c "~")%bool
       then false
       else true.

(** The digit of ["0123456789ABCDEF"] at index [n mod 16]. *)
Definition upperhex (n : nat) : ascii :=
  let d := n mod 16 in
  if (d <? 10)%nat then ascii_of_nat (48 + d) else ascii_of_nat (55 + d).

(** [url.QueryEscape]: a space becomes [+], any other byte that
    [shouldEscape] becomes [%XX], the rest is copied. *)
Fixpoint QueryEscape (s : string) : string :=
  match s with
  | EmptyString => EmptyString
  | String c s' =>
      if shouldEscape c then
        if Ascii.eqb c " " then String "+" (QueryEscape s')
        else String "%" (String (upperhex (nat_of_ascii c / 16))
                           (String (upperhex (nat_of_ascii c)) (QueryEscape s')))
      else String c (QueryEscape s')
  end.

Definition ishex (c : ascii) : bool :=
  let n := nat_of_ascii c in
  (((48 <=? n) && (n <=? 57)) || ((97 <=? n) && (n <=? 102)) || ((65 <=? n) && (n <=? 70)))%nat.

Definition unhex (c : ascii) : nat :=
  let n := nat_of_ascii c in
  if ((48 <=? n) && (n <=? 57))%nat then n - 48
  else if ((97 <=? n) && (n <=? 102))%nat then n - 97 + 10
  else if ((65 <=? n) && (n <=? 70))%nat then n - 65 + 10
  else 0.

(** [url.QueryUnescape], the inverse the server applies to a query
    value: [%XX] becomes the byte, [+] a space; a [%] not followed by
    two hexadecimal digits is an error ([None]). *)
Fixpoint QueryUnescape (s : string) : option string :=
  match s with
  | EmptyString => Some EmptyString
  | String c s' =>
      if Ascii.eqb c "%" then
        match s' with
        | String h (String l rest) =>
            if ishex h && ishex l then
              match QueryUnescape rest with
              | Some r => Some (String (ascii_of_nat (unhex h * 16 + unhex l)) r)
              | None => None
              end
            else None
        | _ => None
        end
      else
        match QueryUnescape s' with
        | Some r => Some (String (if Ascii.eqb c "+" then " "%char else c) r)
        | None => None
        end
  end.

End url.

(** ** Go values *)

(** A Go [error] is modelled by its message; [nil] is [None]. *)
Definition error : Type := string.

(** A [[]byte] value: the nil slice, or a slice with its bytes
    ([[]byte{}] is [slice ""]). *)
Inductive ByteSlice : Type :=
  | nilSlice
  | slice (data : string).

(** The conversion [string(b)]. *)
Definition string_of (b : ByteSlice) : string :=
  match b with
  | nilSlice => EmptyString
  | slice data => data
  end.

(** A [map[string]string] value: the nil map, or a map. *)
Inductive StringMap : Type :=
  | nilMap
  | mapOf (m : gmap string string).

Definition is_nil (s : StringMap) : bool :=
  match s with nilMap => true | mapOf _ => false end.

Definition len (s : StringMap) : nat :=
  match s with nilMap => 0 | mapOf m => size m end.

Definition LF : string := String (ascii_of_nat 10) EmptyString.

Module fmt.

(** The verb [%d] on an [int]. *)
Definition decimal (n : Z) : string := NilZero.string_of_int (Z.to_int n).

End fmt.

Module http.

Definition StatusOK : Z := 200.
Definition StatusPartialContent : Z := 206.

(** The fields of [http.Request] the client sets: the body is the
    content of the [io.Reader] ([None] for a nil reader), and
    [Authorization] is what [SetBasicAuth] stores in the header. *)
Record Request : Type := {
  Method : string;
  URL : string;
  Body : option string;
  Authorization : option (string * string)
}.

(** The request [http.NewRequest] makes when it accepts the method
    and the URL. *)
Definition mkRequest (method url : string) (body : option string) : Request :=
  {| Method := method; URL := url; Body := body; Authorization := None |}.

Definition SetBasicAuth (username password : string) (r : Request) : Request :=
  {| Method := Method r; URL := URL r; Body := Body r;
     Authorization := Some (username, password) |}.

(** The fields of [http.Response] the client reads.  [ReadBody] is
    what [ioutil.ReadAll(response.Body)] returns. *)
Record Response : Type := {
  StatusCode : Z;
  Status : string;
  ReadBody : ByteSlice * option error
}.

(** The transport behind [http.Client.Do]: from the requests sent so
    far and the request, a response or a transport error. *)
Definition Client : Type := list Request -> Request -> Response + error.

End http.

(** ** The world: requests sent, lines logged *)

Record World : Type := {
  calls : list http.Request;
  logs : list string
}.

Definition M (A : Type) : Type := World -> A * World.

Definition ret {A} (a : A) : M A := fun w => (a, w).

Definition bind {A B} (m : M A) (k : A -> M B) : M B :=
  fun w => let (a, w') := m w in k a w'.

Notation "'do' x <- m ;; k" := (bind m (fun x => k))
  (at level 10, x name, m at level 99, k at level 200, only parsing).
Notation "'do' ' p <- m ;; k" := (bind m (fun x => let 'p := x in k))
  (at level 10, p pattern, m at level 99, k at level 200, only parsing).
Notation "'run' m ;; k" := (bind m (fun _ => k))
  (at level 10, m at level 99, k at level 200, only parsing).

(** [log.Printf], with the formatted line. *)
Definition log_Printf (line : string) : M unit :=
  fun w => (tt, {| calls := calls w; logs := (logs w ++ [line])%list |}).

(** [httpClient.Do(request)]: the request goes out. *)
Definition Do (t : http.Client) (request : http.Request)
  : M (http.Response + error) :=
  fun w => (t (calls w) request,
            {| calls := (calls w ++ [request])%list; logs := logs w |}).

(** ** Package api *)

(** Package [api] is not part of this file.  [api.DecodeInto(data,
    obj)] fills the object [obj] points to: it gives the object as
    it is afterwards, and the error. *)
Class Decodable (T : Type) : Type :=
  api_DecodeInto : ByteSlice -> T -> T * option error.

(** The objects of package [api] the client sends and receives: their
    zero value, [json.Marshal] on them, and decoding into them. *)
Class ApiObject (T : Type) : Type := {
  zero : T;
  json_Marshal : T -> ByteSlice * option error;
  ApiObject_Decodable :: Decodable T
}.

(** The field [ID] of [api.Pod], [api.ReplicationController] and
    [api.Service]. *)
Class HasID (T : Type) : Type := ID : T -> string.

(** A nil [interface{}] target points to no object. *)
#[global] Instance nil_Decodable : Decodable Empty_set :=
  fun _ obj => match obj with end.

Definition nilTarget : option Empty_set := None.

(** ** The client *)

(** [AuthInfo] is used to store authorization information. *)
Record AuthInfo : Type := {
  User : string;
  Password : string
}.

(** [Client]: [auth] is a pointer, nil is [None]. *)
Record Client : Type := {
  host : string;
  auth : option AuthInfo;
  httpClient : http.Client
}.

(** ** A server and objects to run the client on *)

Module Fixture.

(** An object that is its [ID]; [json.Marshal] refuses the one
    called ["cyclic"], and decoding takes the body as the new [ID],
    but refuses the body ["garbage"]. *)
Definition Object : Type := string.

#[global] Instance Object_ApiObject : ApiObject Object := {|
  zero := EmptyString;
  json_Marshal := fun obj =>
    if String.eqb obj "cyclic" then (nilSlice, Some "json: unsupported value")
    else (slice obj, None);
  ApiObject_Decodable := fun body obj =>
    if String.eqb (string_of body) "garbage" then (obj, Some "invalid character")
    else (string_of body, None)
|}.

#[global] Instance Object_HasID : HasID Object := fun obj => obj.

(** A server that answers every request the same way. *)
Definition answers (code : Z) (status body : string) : http.Client :=
  fun _ _ => inl {| http.StatusCode := code; http.Status := status;
                    http.ReadBody := (slice body, None) |}.

Definition client (code : Z) (status body : string) : Client :=
  {| host := "http://master"; auth := None; httpClient := answers code status body |}.

Definition goSyntax (r : http.Request) : string :=
  "&http.Request{Method:" ++ http.Method r ++ ", URL:" ++ http.URL r ++ "}".

Definition NewRequest_error (method url : string) : option error := None.

Definition mapiter (m : gmap string string) : list (string * string) := map_to_list m.

Definition w0 : World := {| calls := []; logs := [] |}.

Definition get (path : string) : http.Request :=
  {| http.Method := "GET"; http.URL := path; http.Body := None;
     http.Authorization := None |}.

End Fixture.

(** ** Servers and requests that fail *)

Module Faults.

(** A transport that cannot connect. *)
Definition unreachable : Client :=
  {| host := "http://master"; auth := None;
     httpClient := fun _ _ => inr "dial tcp: connection refused" |}.

(** A server whose body breaks off while it is read. *)
Definition truncated (code : Z) (read : string) : Client :=
  {| host := "http://master"; auth := None;
     httpClient := fun _ _ =>
       inl {| http.StatusCode := code; http.Status := "200 OK";
              http.ReadBody := (slice read, Some "unexpected EOF") |} |}.

(** [http.NewRequest] refusing a URL with a [%] that is not followed
    by two hexadecimal digits, and accepting every other one. *)
Definition NewRequest_error (method url : string) : option error :=
  match url.QueryUnescape url with
  | Some _ => None
  | None => Some ("parse " ++ url ++ ": invalid URL escape")
  end.

(** A client with credentials. *)
Definition withCredentials (code : Z) (status body : string) : Client :=
  {| host := "https://master";
     auth := Some {| User := "admin"; Password := "secret" |};
     httpClient := Fixture.answers code status body |}.

End Faults.

Section client.

(** The verb [%#v] on a [*http.Request]. *)
Variable goSyntax : http.Request -> string.

(** The error of [http.NewRequest(method, url, body)], for a method
    or a URL it refuses; [None] when it accepts them. *)
Variable NewRequest_error : string -> string -> option error.

(** The order in which [range] visits a map: any order, each entry
    once. *)
Variable mapiter : gmap string string -> list (string * string).
Hypothesis mapiter_perm : forall m, mapiter m ≡ₚ map_to_list m.

Definition range (selector : StringMap) : list (string * string) :=
  match selector with
  | nilMap => []
  | mapOf m => mapiter m
  end.

(** The request as [doRequest] sends it. *)
Definition withAuth (c : Client) (request : http.Request) : http.Request :=
  match auth c with
  | Some a => http.SetBasicAuth (User a) (Password a) request
  | None => request
  end.

(** The world after [request] went out. *)
Definition sent (request : http.Request) (w : World) : World :=
  {| calls := (calls w ++ [request])%list; logs := logs w |}.

(** The world after [line] was logged. *)
Definition logged (line : string) (w : World) : World :=
  {| calls := calls w; logs := (logs w ++ [line])%list |}.

Definition NewRequest (method url : string) (body : option string)
  : http.Request + error :=
  match NewRequest_error method url with
  | Some err => inr err
  | None => inl (http.mkRequest method url body)
  end.

(** The test of [doRequest] on the status code. *)
Definition statusFailed (code : Z) : bool :=
  ((code <? http.StatusOK) || (code >? http.StatusPartialContent))%Z.

(** The error of [doRequest] for a status that fails. *)
Definition statusError (request : http.Request) (response : http.Response)
    (body : ByteSlice) : error :=
  "request [" ++ goSyntax request ++ "] failed ("
  ++ fmt.decimal (http.StatusCode response) ++ ") "
  ++ http.Status response ++ ": " ++ string_of body.

(** Execute a request, adds authentication (if auth != nil). *)
Definition doRequest (c : Client) (request : http.Request)
  : M (ByteSlice * option error) :=
  let request :=
    match auth c with
    | Some a => http.SetBasicAuth (User a) (Password a) request
    | None => request
    end in
  do r <- Do (httpClient c) request ;;
  match r with
  | inr err => ret (slice "", Some err)
  | inl response =>
      let '(body, err) := http.ReadBody response in
      match err with
      | Some _ => ret (body, err)
      | None =>
          if statusFailed (http.StatusCode response) then
            ret (nilSlice,
                 Some ("request [" ++ goSyntax request ++ "] failed ("
                       ++ fmt.decimal (http.StatusCode response) ++ ") "
                       ++ http.Status response ++ ": " ++ string_of body))
          else ret (body, err)
      end
  end.

Definition makeURL (client : Client) (path : string) : string :=
  host client ++ "/api/v1beta1/" ++ path.

(** Underlying base implementation of performing a request.  The
    third component of the result is the object [target] points to,
    as it is when [rawRequest] returns. *)
Definition rawRequest {T} `{Decodable T} (c : Client) (method path : string)
    (requestBody : option string) (target : option T)
  : M (ByteSlice * option error * option T) :=
  match NewRequest method (makeURL c path) requestBody with
  | inr err => ret (slice "", Some err, target)
  | inl request =>
      do '(body, err) <- doRequest c request ;;
      match err with
      | Some _ => ret (body, err, target)
      | None =>
          let '(target, err) :=
            match target with
            | Some obj => let '(obj', err) := api_DecodeInto body obj in (Some obj', err)
            | None => (None, err)
            end in
          match err with
          | Some _ =>
              run log_Printf ("Failed to parse: " ++ string_of body ++ LF) ;;
              ret (body, err, target)
          | None => ret (body, err, target)
          end
      end
  end.

(** [EncodeSelector] transforms a selector expressed as a key/value
    map, into a comma separated, key=value encoding. *)
Definition EncodeSelector (selector : StringMap) : string :=
  let parts :=
    foldl (fun (parts : list string) '(key, value) =>
             app parts [key ++ "=" ++ value])
          [] (range selector) in
  url.QueryEscape (strings.Join parts ",").

(** The loop of [DecodeSelector] over the parts. *)
Fixpoint DecodeSelector_parts (selector : string) (parts : list string)
    (result : gmap string string) : M (gmap string string) :=
  match parts with
  | [] => ret result
  | part :: parts' =>
      let pieces := strings.Split part "=" in
      if (length pieces =? 2)%nat then
        DecodeSelector_parts selector parts'
          (<[nth 0 pieces "" := nth 1 pieces ""]> result)
      else
        run log_Printf ("Invalid selector: " ++ selector) ;;
        DecodeSelector_parts selector parts' result
  end.

(** [DecodeSelector] transforms a selector from a comma separated,
    key=value format into a key/value map. *)
Definition DecodeSelector (selector : string) : M (gmap string string) :=
  let result : gmap string string := ∅ in
  if (String.length selector =? 0)%nat then ret result
  else DecodeSelector_parts selector (strings.Split selector ",") result.

(** The object a non-nil target points to after the call. *)
Definition deref {T} `{ApiObject T} (target : option T) : T :=
  match target with
  | Some obj => obj
  | None => zero
  end.

Context {PodList Pod ReplicationController Service : Type}.
Context `{ApiObject PodList} `{ApiObject Pod} `{ApiObject ReplicationController}
        `{ApiObject Service}.
Context `{HasID Pod} `{HasID ReplicationController} `{HasID Service}.

(** [ListPods] takes a selector, and returns the list of pods that
    match that selector. *)
Definition ListPods (client : Client) (selector : StringMap)
  : M (PodList * option error) :=
  let path := "pods" in
  let path :=
    if negb (is_nil selector) && (0 <? len selector)%nat
    then path ++ "?labels=" ++ EncodeSelector selector
    else path in
  do '(_, err, result) <- rawRequest client "GET" path None (Some (zero : PodList)) ;;
  ret (deref result, err).

Definition GetPod (client : Client) (name : string) : M (Pod * option error) :=
  do '(_, err, result) <- rawRequest client "GET" ("pods/" ++ name) None (Some (zero : Pod)) ;;
  ret (deref result, err).

Definition DeletePod (client : Client) (name : string) : M (option error) :=
  do '(_, err, _) <- rawRequest client "DELETE" ("pods/" ++ name) None nilTarget ;;
  ret err.

(** The shape of every method that sends an object: marshal, and
    only without error go on to [rawRequest]. *)
Definition CreatePod (client : Client) (pod : Pod) : M (Pod * option error) :=
  let result : Pod := zero in
  let '(body, err) := json_Marshal pod in
  match err with
  | None =>
      do '(_, err, result) <- rawRequest client "POST" "pods" (Some (string_of body)) (Some result) ;;
      ret (deref result, err)
  | Some _ => ret (result, err)
  end.

Definition UpdatePod (client : Client) (pod : Pod) : M (Pod * option error) :=
  let result : Pod := zero in
  let '(body, err) := json_Marshal pod in
  match err with
  | None =>
      do '(_, err, result) <- rawRequest client "PUT" ("pods/" ++ ID pod) (Some (string_of body)) (Some result) ;;
      ret (deref result, err)
  | Some _ => ret (result, err)
  end.

Definition GetReplicationController (client : Client) (name : string)
  : M (ReplicationController * option error) :=
  do '(_, err, result) <- rawRequest client "GET" ("replicationControllers/" ++ name) None
                         (Some (zero : ReplicationController)) ;;
  ret (deref result, err).

Definition CreateReplicationController (client : Client) (controller : ReplicationController)
  : M (ReplicationController * option error) :=
  let result : ReplicationController := zero in
  let '(body, err) := json_Marshal controller in
  match err with
  | None =>
      do '(_, err, result) <- rawRequest client "POST" "replicationControllers"
                             (Some (string_of body)) (Some result) ;;
      ret (deref result, err)
  | Some _ => ret (result, err)
  end.

Definition UpdateReplicationController (client : Client) (controller : ReplicationController)
  : M (ReplicationController * option error) :=
  let result : ReplicationController := zero in
  let '(body, err) := json_Marshal controller in
  match err with
  | None =>
      do '(_, err, result) <- rawRequest client "PUT" ("replicationControllers/" ++ ID controller)
                             (Some (string_of body)) (Some result) ;;
      ret (deref result, err)
  | Some _ => ret (result, err)
  end.

Definition DeleteReplicationController (client : Client) (name : string) : M (option error) :=
  do '(_, err, _) <- rawRequest client "DELETE" ("replicationControllers/" ++ name) None nilTarget ;;
  ret err.

Definition GetService (client : Client) (name : string) : M (Service * option error) :=
  do '(_, err, result) <- rawRequest client "GET" ("services/" ++ name) None (Some (zero : Service)) ;;
  ret (deref result, err).

Definition CreateService (client : Client) (svc : Service) : M (Service * option error) :=
  let result : Service := zero in
  let '(body, err) := json_Marshal svc in
  match err with
  | None =>
      do '(_, err, result) <- rawRequest client "POST" "services" (Some (string_of body)) (Some result) ;;
      ret (deref result, err)
  | Some _ => ret (result, err)
  end.

Definition UpdateService (client : Client) (svc : Service) : M (Service * option error) :=
  let result : Service := zero in
  let '(body, err) := json_Marshal svc in
  match err with
  | None =>
      do '(_, err, result) <- rawRequest client "PUT" ("services/" ++ ID svc) (Some (string_of body)) (Some result) ;;
      ret (deref result, err)
  | Some _ => ret (result, err)
  end.

Definition DeleteService (client : Client) (name : string) : M (option error) :=
  do '(_, err, _) <- rawRequest client "DELETE" ("services/" ++ name) None nilTarget ;;
  ret err.

(** ** The selector codec, as the specification words it *)

(** A key or value free of the two separators of the wire format. *)
Definition plain (s : string) : bool :=
  negb (strings.has_byte "=" s) && negb (strings.has_byte "," s).

(** The key and value of a part that splits on [=] into exactly two
    pieces; nothing for any other part. *)
Definition wellformed (part : string) : option (string * string) :=
  match strings.Split part "=" with
  | [key; value] => Some (key, value)
  | _ => None
  end.

(** The entries the well-formed parts of a wire string contribute, in
    the order of the parts. *)
Definition contributions (wire : string) : list (string * string) :=
  omap wellformed (strings.Split wire ",").

(** The parts that are skipped. *)
Definition skipped (wire : string) : list string :=
  filter (fun part => wellformed part = None) (strings.Split wire ",").

(** Decoding in the words of the specification: the empty input is
    the empty mapping; otherwise each well-formed part contributes
    its entry, a later one for a key replacing an earlier one. *)
Definition Decode_spec (wire : string) : gmap string string :=
  if decide (wire = "") then ∅
  else foldl (fun m '(key, value) => <[key := value]> m) ∅ (contributions wire).

(** The pairs joined by commas, before they are escaped. *)
Definition joined (pairs : list (string * string)) : string :=
  strings.Join (map (fun '(key, value) => key ++ "=" ++ value) pairs) ",".

(** Pairs whose keys and values are free of [=] and [,]. *)
Definition plain_pairs (pairs : list (string * string)) : Prop :=
  Forall (fun '(key, value) => plain key = true /\ plain value = true) pairs.

(** ** Further definitions *)

(** The [http.Client] over an [http.Transport] whose TLS
    configuration has [InsecureSkipVerify] as given. *)
Variable transportClient : bool -> http.Client.

(** Create a new client object. *)
Definition New (host : string) (auth : option AuthInfo) : Client :=
  {| host := host; auth := auth; httpClient := transportClient true |}.

(** The world after the body of a response was decoded with the
    error [err]: [rawRequest] logs the body when there is one. *)
Definition afterDecode (body : ByteSlice) (err : option error) (w : World) : World :=
  match err with
  | Some _ => logged ("Failed to parse: " ++ string_of body ++ LF) w
  | None => w
  end.

(** The request of a method for [method], [path] and [requestBody],
    as the client sends it. *)
Definition requestFor (c : Client) (method path : string)
    (requestBody : option string) : http.Request :=
  withAuth c (http.mkRequest method (makeURL c path) requestBody).

(** [http.NewRequest] accepts that one request, and the transport
    answers it, after the requests sent so far, with [response]. *)
Definition exchange (c : Client) (w : World) (method path : string)
    (requestBody : option string) (response : http.Response) : Prop :=
  NewRequest_error method (makeURL c path) = None
  /\ httpClient c (calls w) (requestFor c method path requestBody) = inl response.

(** [http.NewRequest] accepts that one request, and the transport
    fails on it with [err]. *)
Definition transportFails (c : Client) (w : World) (method path : string)
    (requestBody : option string) (err : error) : Prop :=
  NewRequest_error method (makeURL c path) = None
  /\ httpClient c (calls w) (requestFor c method path requestBody) = inr err.

(** The path [ListPods] asks for: [pods] for a nil or empty selector,
    [pods?labels=] and the encoded selector for one with an entry. *)
Definition listPath (selector : StringMap) (path : string) : Prop :=
  ((selector = nilMap \/ selector = mapOf ∅) /\ path = "pods")
  \/ (exists m, selector = mapOf m /\ m <> ∅
                /\ path = "pods?labels=" ++ EncodeSelector selector).

(** The number of bytes [c] in [s]. *)
Fixpoint count_byte (c : ascii) (s : string) : nat :=
  match s with
  | EmptyString => 0
  | String d s' => (if Ascii.eqb d c then 1 else 0) + count_byte c s'
  end.

(** The bytes [url.QueryEscape] can produce: the ones it copies, and
    [%] and [+]. *)
Definition escaped_byte (c : ascii) : bool :=
  negb (url.shouldEscape c) || Ascii.eqb c "%" || Ascii.eqb c "+".

Fixpoint all_bytes (p : ascii -> bool) (s : string) : bool :=
  match s with
  | EmptyString => true
  | String c s' => p c && all_bytes p s'
  end.

(** ** The request pipeline *)

Lemma statusFailed_range (code : Z) :
  statusFailed code = false <-> (200 <= code <= 206)%Z.
Proof.
  unfold statusFailed, http.StatusOK, http.StatusPartialContent.
  rewrite orb_false_iff, Z.ltb_ge, Z.gtb_ltb, Z.ltb_ge. lia.
Qed.

(** What [doRequest] does once the transport has given a response. *)
Lemma doRequest_response (c : Client) (request : http.Request) (w : World)
    (response : http.Response) :
  httpClient c (calls w) (withAuth c request) = inl response ->
  doRequest c request w =
    (match http.ReadBody response with
     | (body, Some err) => (body, Some err)
     | (body, None) =>
         if statusFailed (http.StatusCode response)
         then (nilSlice, Some (statusError (withAuth c request) response body))
         else (body, None)
     end, sent (withAuth c request) w).
Proof.
  intros Hdo. unfold doRequest, bind, Do. fold (withAuth c request).
  rewrite Hdo. destruct (http.ReadBody response) as [body [err|]]; [reflexivity|].
  destruct (statusFailed (http.StatusCode response)); reflexivity.
Qed.

Lemma doRequest_transport_error (c : Client) (request : http.Request) (w : World)
    (err : error) :
  httpClient c (calls w) (withAuth c request) = inr err ->
  doRequest c request w = ((slice "", Some err), sent (withAuth c request) w).
Proof.
  intros Hdo. unfold doRequest, bind, Do. fold (withAuth c request).
  rewrite Hdo. reflexivity.
Qed.

Lemma append_nil_r (s : string) : s ++ "" = s.
Proof.
  induction s as [|c s IH]; [reflexivity|].
  change (String c (s ++ "") = String c s). by rewrite IH.
Qed.

Lemma append_assoc (s1 s2 s3 : string) : (s1 ++ s2) ++ s3 = s1 ++ s2 ++ s3.
Proof.
  induction s1 as [|c s1 IH]; [reflexivity|].
  change (String c ((s1 ++ s2) ++ s3) = String c (s1 ++ s2 ++ s3)). by rewrite IH.
Qed.

Lemma Contains_refl (s : string) : strings.Contains s s.
Proof. exists EmptyString, EmptyString. by rewrite append_nil_r. Qed.

Lemma Contains_prefix (s post : string) : strings.Contains (s ++ post) s.
Proof. by exists EmptyString, post. Qed.

Lemma Contains_append_r (pre s x : string) :
  strings.Contains s x -> strings.Contains (pre ++ s) x.
Proof.
  intros (p & q & ->). exists (pre ++ p), q. by rewrite append_assoc.
Qed.

Lemma statusError_has_code (request : http.Request) (response : http.Response)
    (body : ByteSlice) :
  strings.Contains (statusError request response body)
                   (fmt.decimal (http.StatusCode response)).
Proof.
  unfold statusError. do 3 apply Contains_append_r. apply Contains_prefix.
Qed.

Lemma statusError_has_body (request : http.Request) (response : http.Response)
    (body : ByteSlice) :
  strings.Contains (statusError request response body) (string_of body).
Proof.
  unfold statusError. do 7 apply Contains_append_r. apply Contains_refl.
Qed.

Lemma doRequest_calls (c : Client) (request : http.Request) (w : World) :
  calls (snd (doRequest c request w)) = (calls w ++ [withAuth c request])%list
  /\ logs (snd (doRequest c request w)) = logs w.
Proof.
  destruct (httpClient c (calls w) (withAuth c request)) as [response|err] eqn:Hdo.
  - rewrite (doRequest_response _ _ _ _ Hdo). done.
  - rewrite (doRequest_transport_error _ _ _ _ Hdo). done.
Qed.

(** What [rawRequest] does once [http.NewRequest] has accepted the
    method and the URL. *)
Lemma rawRequest_accepted {T} `{Decodable T} (c : Client) (method path : string)
    (requestBody : option string) (target : option T) (w : World) :
  NewRequest_error method (makeURL c path) = None ->
  rawRequest c method path requestBody target w =
    let '((body, err), w') :=
      doRequest c (http.mkRequest method (makeURL c path) requestBody) w in
    match err, target with
    | Some _, _ => ((body, err, target), w')
    | None, None => ((body, None, None), w')
    | None, Some obj =>
        match api_DecodeInto body obj with
        | (obj', Some derr) =>
            ((body, Some derr, Some obj'),
             logged ("Failed to parse: " ++ string_of body ++ LF) w')
        | (obj', None) => ((body, None, Some obj'), w')
        end
    end.
Proof.
  intros Hnew. unfold rawRequest, NewRequest. rewrite Hnew. unfold bind.
  destruct (doRequest _ _ w) as [[body [err|]] w']; [reflexivity|].
  destruct target as [obj|]; [|reflexivity].
  destruct (api_DecodeInto body obj) as [obj' [derr|]]; reflexivity.
Qed.

Lemma rawRequest_calls {T} `{Decodable T} (c : Client) (method path : string)
    (requestBody : option string) (target : option T) (w : World) :
  NewRequest_error method (makeURL c path) = None ->
  calls (snd (rawRequest c method path requestBody target w)) =
    (calls w ++ [withAuth c (http.mkRequest method (makeURL c path) requestBody)])%list.
Proof.
  intros Hnew. rewrite (rawRequest_accepted _ _ _ _ _ _ Hnew).
  pose proof (doRequest_calls c (http.mkRequest method (makeURL c path) requestBody) w)
    as [Hcalls _].
  destruct (doRequest _ _ w) as [[body [err|]] w']; [exact Hcalls|].
  destruct target as [obj|]; [|exact Hcalls].
  destruct (api_DecodeInto body obj) as [obj' [derr|]]; exact Hcalls.
Qed.

(** C3: with the body read, [doRequest] returns without error exactly
    for a status code from 200 to 206, both included: 206 succeeds,
    207 and every code from 300 on fail. *)
Theorem doRequest_success_iff_200_to_206 (c : Client) (request : http.Request)
    (w : World) (response : http.Response) (body : ByteSlice) :
  httpClient c (calls w) (withAuth c request) = inl response ->
  http.ReadBody response = (body, None) ->
  (snd (fst (doRequest c request w)) = None
     <-> (200 <= http.StatusCode response <= 206)%Z)
  /\ ((200 <= http.StatusCode response <= 206)%Z ->
      fst (doRequest c request w) = (body, None))
  /\ statusFailed 206 = false
  /\ (forall code, (207 <= code)%Z -> statusFailed code = true).
Proof.
  intros Hdo Hread. rewrite (doRequest_response _ _ _ _ Hdo), Hread.
  pose proof (statusFailed_range (http.StatusCode response)) as Hrange.
  split; [|split; [|split]].
  - destruct (statusFailed (http.StatusCode response)); cbn; split.
    + discriminate.
    + intros Hin. apply Hrange in Hin. discriminate.
    + intros _. by apply Hrange.
    + done.
  - intros Hin. apply Hrange in Hin. by rewrite Hin.
  - reflexivity.
  - intros code Hcode. destruct (statusFailed code) eqn:Hf; [done|].
    apply statusFailed_range in Hf. lia.
Qed.

(** C1, as the code has it: for a status code outside 200..206,
    [doRequest] returns an error whose text contains the status code
    in decimal and the text of the response body; the byte slice it
    returns with that error is nil. *)
Theorem doRequest_failed_status (c : Client) (request : http.Request)
    (w : World) (response : http.Response) (body : ByteSlice) :
  httpClient c (calls w) (withAuth c request) = inl response ->
  http.ReadBody response = (body, None) ->
  ~ (200 <= http.StatusCode response <= 206)%Z ->
  exists err,
    fst (doRequest c request w) = (nilSlice, Some err)
    /\ strings.Contains err (fmt.decimal (http.StatusCode response))
    /\ strings.Contains err (string_of body).
Proof.
  intros Hdo Hread Hout. rewrite (doRequest_response _ _ _ _ Hdo), Hread.
  destruct (statusFailed (http.StatusCode response)) eqn:Hf.
  - eexists. split; [reflexivity|]. split.
    + apply statusError_has_code.
    + apply statusError_has_body.
  - apply statusFailed_range in Hf. contradiction.
Qed.

(** C8: on a response with a status code from 200 to 206 and a
    non-nil target, [rawRequest] decodes the body into the target and
    returns the body it read together with the error of the decoding,
    so the bytes are returned also when decoding fails. *)
Theorem rawRequest_decodes_and_returns_body {T} `{Decodable T} (c : Client)
    (method path : string) (requestBody : option string) (obj : T) (w : World)
    (response : http.Response) (body : ByteSlice) :
  NewRequest_error method (makeURL c path) = None ->
  httpClient c (calls w)
    (withAuth c (http.mkRequest method (makeURL c path) requestBody)) = inl response ->
  http.ReadBody response = (body, None) ->
  (200 <= http.StatusCode response <= 206)%Z ->
  fst (rawRequest c method path requestBody (Some obj) w) =
    (body, snd (api_DecodeInto body obj), Some (fst (api_DecodeInto body obj))).
Proof.
  intros Hnew Hdo Hread Hin. rewrite (rawRequest_accepted _ _ _ _ _ _ Hnew).
  rewrite (doRequest_response _ _ _ _ Hdo), Hread.
  apply statusFailed_range in Hin. rewrite Hin.
  destruct (api_DecodeInto body obj) as [obj' [derr|]]; reflexivity.
Qed.

(** ** The typed methods *)

(** C5: when [json.Marshal] fails on the object, each of the six
    methods that send one returns that error (with the zero object)
    and leaves the world as it was: no request goes out. *)
Theorem marshal_error_returned_without_request (client : Client) (w : World)
    (pod : Pod) (controller : ReplicationController) (svc : Service)
    (b1 b2 b3 : ByteSlice) (e1 e2 e3 : error) :
  json_Marshal pod = (b1, Some e1) ->
  json_Marshal controller = (b2, Some e2) ->
  json_Marshal svc = (b3, Some e3) ->
  CreatePod client pod w = ((zero, Some e1), w)
  /\ UpdatePod client pod w = ((zero, Some e1), w)
  /\ CreateReplicationController client controller w = ((zero, Some e2), w)
  /\ UpdateReplicationController client controller w = ((zero, Some e2), w)
  /\ CreateService client svc w = ((zero, Some e3), w)
  /\ UpdateService client svc w = ((zero, Some e3), w).
Proof.
  intros Hpod Hcontroller Hsvc.
  unfold CreatePod, UpdatePod, CreateReplicationController,
    UpdateReplicationController, CreateService, UpdateService.
  rewrite Hpod, Hcontroller, Hsvc. repeat split.
Qed.

(** C6: the URL of a request is the host, then [/api/v1beta1/], then
    the path; [DeletePod] sends one DELETE request for the path
    [pods/] followed by the name, without body, whatever the answer
    is, and its only result is the error, nil on a response with a
    status from 200 to 206. *)
Theorem DeletePod_sends_delete (client : Client) (name : string) (w : World) :
  let request :=
    {| http.Method := "DELETE";
       http.URL := host client ++ "/api/v1beta1/" ++ "pods/" ++ name;
       http.Body := None;
       http.Authorization := None |} in
  NewRequest_error "DELETE" (http.URL request) = None ->
  (forall p, makeURL client p = host client ++ "/api/v1beta1/" ++ p)
  /\ calls (snd (DeletePod client name w)) = app (calls w) [withAuth client request]
  /\ (forall response body,
        httpClient client (calls w) (withAuth client request) = inl response ->
        http.ReadBody response = (body, None) ->
        (200 <= http.StatusCode response <= 206)%Z ->
        DeletePod client name w = (None, sent (withAuth client request) w)).
Proof.
  intros request Hnew. split; [reflexivity|]. split.
  - unfold DeletePod, bind.
    pose proof (rawRequest_calls client "DELETE" ("pods/" ++ name) None nilTarget w Hnew)
      as Hcalls.
    destruct (rawRequest client "DELETE" ("pods/" ++ name) None nilTarget w)
      as [[[b e] r] w'].
    exact Hcalls.
  - intros response body Hdo Hread Hin. unfold DeletePod, bind.
    rewrite (rawRequest_accepted _ _ _ _ _ _ Hnew).
    change (http.mkRequest "DELETE" (makeURL client ("pods/" ++ name)) None)
      with request.
    rewrite (doRequest_response _ _ _ _ Hdo), Hread.
    apply statusFailed_range in Hin. rewrite Hin. reflexivity.
Qed.

(** C7: the one request of [ListPods] is a GET for the path [pods]
    when the selector is nil or empty, and for [pods?labels=]
    followed by the encoded selector when it has an entry; in each
    case [http.NewRequest] has to accept that one URL. *)
Theorem ListPods_path (client : Client) (selector : StringMap) (w : World) :
  let sends := fun path =>
    calls (snd (ListPods client selector w)) =
      app (calls w)
          [withAuth client
             (http.mkRequest "GET" (host client ++ "/api/v1beta1/" ++ path) None)] in
  (selector = nilMap \/ selector = mapOf ∅ ->
   NewRequest_error "GET" (makeURL client "pods") = None ->
   sends "pods")
  /\ (forall m, selector = mapOf m -> m <> ∅ ->
      NewRequest_error "GET"
        (makeURL client ("pods?labels=" ++ EncodeSelector selector)) = None ->
      sends ("pods?labels=" ++ EncodeSelector selector)).
Proof.
  intros sends. subst sends.
  assert (forall path,
            ListPods client selector w =
              bind (rawRequest client "GET" path None (Some (zero : PodList)))
                   (fun x => let '(_, err, result) := x in ret (deref result, err)) w ->
            NewRequest_error "GET" (makeURL client path) = None ->
            calls (snd (ListPods client selector w)) =
              app (calls w)
                  [withAuth client
                     (http.mkRequest "GET" (host client ++ "/api/v1beta1/" ++ path)
                                     None)]) as Hsends.
  { intros path -> Hnew. unfold bind.
    pose proof (rawRequest_calls client "GET" path None (Some (zero : PodList)) w Hnew)
      as Hcalls.
    destruct (rawRequest client "GET" path None (Some zero) w) as [[[b e] r] w'].
    exact Hcalls. }
  split.
  - intros Hsel. apply Hsends. unfold ListPods.
    destruct Hsel as [-> | ->]; [reflexivity|]. cbn. by rewrite map_size_empty.
  - intros m -> Hne. apply Hsends. unfold ListPods. cbn.
    destruct (size m) as [|n] eqn:Hsize; [|reflexivity].
    by apply map_size_empty_iff in Hsize.
Qed.

(** ** [strings.Split] and [strings.Join] *)

Lemma Split_no_sep (sep : ascii) (x : string) :
  strings.has_byte sep x = false -> strings.Split x sep = [x].
Proof.
  induction x as [|c x IH]; [reflexivity|]. cbn.
  intros [Hc Hx]%orb_false_iff. rewrite Hc, (IH Hx). reflexivity.
Qed.

Lemma Split_app_sep (sep : ascii) (x rest : string) :
  strings.has_byte sep x = false ->
  strings.Split (x ++ String sep rest) sep = x :: strings.Split rest sep.
Proof.
  induction x as [|c x IH].
  - intros _. change ("" ++ String sep rest) with (String sep rest). cbn.
    by rewrite Ascii.eqb_refl.
  - cbn. intros [Hc Hx]%orb_false_iff.
    change (String c x ++ String sep rest) with (String c (x ++ String sep rest)).
    cbn. rewrite Hc, (IH Hx). reflexivity.
Qed.

Lemma Split_Join (sep : ascii) (parts : list string) :
  parts <> [] ->
  Forall (fun part => strings.has_byte sep part = false) parts ->
  strings.Split (strings.Join parts (String sep "")) sep = parts.
Proof.
  intros Hne Hall. induction Hall as [|x parts Hx Hall IH]; [done|].
  destruct parts as [|y parts].
  - cbn. by apply Split_no_sep.
  - change (strings.Join (x :: y :: parts) (String sep ""))
      with (x ++ String sep "" ++ strings.Join (y :: parts) (String sep "")).
    change (String sep "" ++ strings.Join (y :: parts) (String sep ""))
      with (String sep (strings.Join (y :: parts) (String sep ""))).
    rewrite (Split_app_sep _ _ _ Hx), IH; done.
Qed.

Lemma has_byte_app (c : ascii) (x y : string) :
  strings.has_byte c (x ++ y) = strings.has_byte c x || strings.has_byte c y.
Proof.
  induction x as [|d x IH]; [reflexivity|].
  change (String d x ++ y) with (String d (x ++ y)). cbn.
  by rewrite IH, orb_assoc.
Qed.

Lemma plain_spec (s : string) :
  plain s = true <-> strings.has_byte "=" s = false /\ strings.has_byte "," s = false.
Proof.
  unfold plain. rewrite andb_true_iff, !negb_true_iff. done.
Qed.

Lemma wellformed_pair (key value : string) :
  plain key = true -> plain value = true ->
  wellformed (key ++ "=" ++ value) = Some (key, value).
Proof.
  intros [Hk _]%plain_spec [Hv _]%plain_spec. unfold wellformed.
  change ("=" ++ value) with (String "=" value).
  by rewrite (Split_app_sep _ _ _ Hk), (Split_no_sep _ _ Hv).
Qed.

(** ** [DecodeSelector] *)

Lemma DecodeSelector_parts_wellformed (selector part : string) (parts : list string)
    (result : gmap string string) (key value : string) :
  wellformed part = Some (key, value) ->
  DecodeSelector_parts selector (part :: parts) result =
    DecodeSelector_parts selector parts (<[key := value]> result).
Proof.
  unfold wellformed. cbn [DecodeSelector_parts].
  destruct (strings.Split part "=") as [|k [|v [|extra pieces]]]; try discriminate.
  intros [= -> ->]. reflexivity.
Qed.

Lemma DecodeSelector_parts_skipped (selector part : string) (parts : list string)
    (result : gmap string string) :
  wellformed part = None ->
  DecodeSelector_parts selector (part :: parts) result =
    bind (log_Printf ("Invalid selector: " ++ selector))
         (fun _ => DecodeSelector_parts selector parts result).
Proof.
  unfold wellformed. cbn [DecodeSelector_parts].
  destruct (strings.Split part "=") as [|k [|v [|extra pieces]]]; try discriminate;
    reflexivity.
Qed.

(** The loop inserts the entries of the well-formed parts in order,
    and logs one line for each part it skips. *)
Lemma DecodeSelector_parts_spec (selector : string) (parts : list string)
    (result : gmap string string) (w : World) :
  DecodeSelector_parts selector parts result w =
    (foldl (fun m '(key, value) => <[key := value]> m) result (omap wellformed parts),
     {| calls := calls w;
        logs := app (logs w)
                  (replicate (length (filter (fun part => wellformed part = None) parts))
                             ("Invalid selector: " ++ selector)) |}).
Proof.
  revert result w. induction parts as [|part parts IH]; intros result w.
  - cbn. destruct w as [cs ls]. cbn. by rewrite app_nil_r.
  - rewrite filter_cons. cbn [omap list_omap].
    destruct (wellformed part) as [[key value]|] eqn:Hpart.
    + rewrite (DecodeSelector_parts_wellformed _ _ _ _ _ _ Hpart), IH.
      rewrite decide_False by done. reflexivity.
    + rewrite (DecodeSelector_parts_skipped _ _ _ _ Hpart).
      unfold bind, log_Printf. rewrite IH, decide_True by done.
      cbn. by rewrite <- app_assoc.
Qed.

Lemma contributions_empty : contributions "" = [].
Proof. reflexivity. Qed.

Lemma DecodeSelector_spec (selector : string) (w : World) :
  DecodeSelector selector w =
    (Decode_spec selector,
     {| calls := calls w;
        logs := app (logs w)
                  (if decide (selector = "") then []
                   else replicate (length (skipped selector))
                                  ("Invalid selector: " ++ selector)) |}).
Proof.
  unfold DecodeSelector, Decode_spec. destruct selector as [|c selector].
  - cbn. destruct w as [cs ls]. cbn. by rewrite app_nil_r.
  - rewrite decide_False by done. cbn [String.length Nat.eqb].
    apply DecodeSelector_parts_spec.
Qed.

Lemma wellformed_Some (part key value : string) :
  wellformed part = Some (key, value) <-> strings.Split part "=" = [key; value].
Proof.
  unfold wellformed.
  destruct (strings.Split part "=") as [|k [|v [|extra pieces]]]; split;
    (discriminate || by intros [= -> ->]).
Qed.

Lemma foldl_insert_lookup_notin (pairs : list (string * string))
    (m : gmap string string) (key : string) :
  key ∉ pairs.*1 ->
  foldl (fun m '(key, value) => <[key := value]> m) m pairs !! key = m !! key.
Proof.
  revert m. induction pairs as [|[k v] pairs IH]; intros m Hnotin; [reflexivity|].
  cbn in *. apply not_elem_of_cons in Hnotin as [Hne Hnotin].
  rewrite (IH _ Hnotin). by apply lookup_insert_ne.
Qed.

Lemma foldl_insert_lookup_last (pre post : list (string * string))
    (m : gmap string string) (key value : string) :
  key ∉ post.*1 ->
  foldl (fun m '(key, value) => <[key := value]> m) m (pre ++ (key, value) :: post)%list
    !! key = Some value.
Proof.
  intros Hnotin. rewrite foldl_app. cbn.
  rewrite (foldl_insert_lookup_notin _ _ _ Hnotin). apply lookup_insert_eq.
Qed.

Lemma foldl_insert_dom (pairs : list (string * string)) (m : gmap string string) :
  dom (foldl (fun m '(key, value) => <[key := value]> m) m pairs)
  = dom m ∪ list_to_set pairs.*1.
Proof.
  revert m. induction pairs as [|[k v] pairs IH]; intros m; cbn.
  - by rewrite (right_id_L ∅ (∪)).
  - rewrite IH, dom_insert_L.
    by rewrite (comm_L (∪) {[k]} (dom m)), (assoc_L (∪)).
Qed.

Lemma list_to_set_remove_dups (keys : list string) :
  list_to_set (remove_dups keys) =@{gset string} list_to_set keys.
Proof.
  apply set_eq. intros key. by rewrite !elem_of_list_to_set, elem_of_remove_dups.
Qed.

Lemma Decode_spec_contributions (wire : string) :
  Decode_spec wire =
    foldl (fun m '(key, value) => <[key := value]> m) ∅ (contributions wire).
Proof.
  unfold Decode_spec. destruct (decide (wire = "")) as [->|]; reflexivity.
Qed.

Lemma Decode_spec_dom (wire : string) :
  dom (Decode_spec wire) = list_to_set (contributions wire).*1.
Proof.
  rewrite Decode_spec_contributions, foldl_insert_dom, dom_empty_L.
  by rewrite (left_id_L ∅ (∪)).
Qed.

(** C4: [DecodeSelector] always returns a mapping and nothing else
    but log lines: the empty mapping for the empty string; otherwise
    the entries of the parts between commas that split on [=] into
    exactly two pieces, with one log line for every other part.
    [a=1,b] gives the mapping of [a] to [1]. *)
Theorem DecodeSelector_total (selector : string) (w : World) :
  exists result w',
    DecodeSelector selector w = (result, w')
    /\ result = Decode_spec selector
    /\ calls w' = calls w
    /\ logs w' = app (logs w)
                   (if decide (selector = "") then []
                    else replicate (length (skipped selector))
                                   ("Invalid selector: " ++ selector))
    /\ DecodeSelector "" w = (∅, w)
    /\ fst (DecodeSelector "a=1,b" w) = {[ "a" := "1" ]}
    /\ logs (snd (DecodeSelector "a=1,b" w)) = app (logs w) ["Invalid selector: a=1,b"].
Proof.
  do 2 eexists. split; [apply DecodeSelector_spec|].
  split; [reflexivity|]. split; [reflexivity|]. split; [reflexivity|].
  split; [reflexivity|]. rewrite DecodeSelector_spec. split.
  - cbn [fst]. unfold Decode_spec. rewrite decide_False by done.
    change (contributions "a=1,b") with [("a", "1")]. cbn. apply insert_empty.
  - reflexivity.
Qed.

(** C9: when two parts of the wire string have the same key, the
    mapping has for that key the value of the later one (the last
    part with that key), and it has one entry for each distinct key
    of the well-formed parts. *)
Theorem DecodeSelector_later_part_overwrites (selector : string) (w : World)
    (pre mid post : list string) (part1 part2 key value1 value2 : string) :
  strings.Split selector "," = (pre ++ part1 :: mid ++ part2 :: post)%list ->
  strings.Split part1 "=" = [key; value1] ->
  strings.Split part2 "=" = [key; value2] ->
  (forall part value, part ∈ post -> strings.Split part "=" <> [key; value]) ->
  let result := fst (DecodeSelector selector w) in
  result !! key = Some value2
  /\ dom result = list_to_set (contributions selector).*1
  /\ size result = length (remove_dups (contributions selector).*1).
Proof.
  intros Hsplit Hpart1%wellformed_Some Hpart2%wellformed_Some Hpost result.
  subst result. rewrite DecodeSelector_spec. cbn [fst].
  split; [|split].
  - rewrite Decode_spec_contributions. unfold contributions. rewrite Hsplit.
    change (pre ++ part1 :: mid ++ part2 :: post)%list
      with (pre ++ (part1 :: mid) ++ part2 :: post)%list.
    rewrite (app_assoc pre (part1 :: mid) (part2 :: post)).
    rewrite omap_app. cbn [omap list_omap]. rewrite Hpart2.
    apply foldl_insert_lookup_last.
    intros ((k & v) & Hk & Hin)%list_elem_of_fmap. cbn in Hk. subst k.
    apply list_elem_of_omap in Hin as (part & Hpart & Hwf).
    apply wellformed_Some in Hwf. exact (Hpost _ _ Hpart Hwf).
  - apply Decode_spec_dom.
  - rewrite <- size_dom, Decode_spec_dom.
    rewrite <- list_to_set_remove_dups.
    apply size_list_to_set, NoDup_remove_dups.
Qed.

(** ** [url.QueryEscape] *)

Lemma QueryUnescape_QueryEscape_byte (c : ascii) (s : string) :
  url.QueryUnescape (url.QueryEscape (String c s)) =
    match url.QueryUnescape (url.QueryEscape s) with
    | Some r => Some (String c r)
    | None => None
    end.
Proof.
  destruct c as [[] [] [] [] [] [] [] []]; reflexivity.
Qed.

Lemma QueryUnescape_QueryEscape (s : string) :
  url.QueryUnescape (url.QueryEscape s) = Some s.
Proof.
  induction s as [|c s IH]; [reflexivity|].
  by rewrite QueryUnescape_QueryEscape_byte, IH.
Qed.

Lemma QueryEscape_byte_no_separator (c : ascii) (s : string) :
  strings.has_byte "," (url.QueryEscape (String c s))
    = strings.has_byte "," (url.QueryEscape s)
  /\ strings.has_byte "=" (url.QueryEscape (String c s))
    = strings.has_byte "=" (url.QueryEscape s).
Proof.
  destruct c as [[] [] [] [] [] [] [] []]; split; reflexivity.
Qed.

Lemma QueryEscape_no_separator (s : string) :
  strings.has_byte "," (url.QueryEscape s) = false
  /\ strings.has_byte "=" (url.QueryEscape s) = false.
Proof.
  induction s as [|c s [IHc IHe]]; [done|].
  destruct (QueryEscape_byte_no_separator c s) as [-> ->]. done.
Qed.

Lemma QueryEscape_empty (s : string) : url.QueryEscape s = "" -> s = "".
Proof.
  destruct s as [|c s]; [done|]. cbn.
  destruct (url.shouldEscape c); [destruct (Ascii.eqb c " ")|]; discriminate.
Qed.

(** ** [EncodeSelector] and the round trip *)

Lemma parts_foldl (pairs : list (string * string)) (parts : list string) :
  foldl (fun (parts : list string) '(key, value) => app parts [key ++ "=" ++ value])
        parts pairs
  = app parts (map (fun '(key, value) => key ++ "=" ++ value) pairs).
Proof.
  revert parts. induction pairs as [|[key value] pairs IH]; intros parts; cbn.
  - by rewrite app_nil_r.
  - by rewrite IH, <- app_assoc.
Qed.

Lemma EncodeSelector_joined (selector : StringMap) :
  EncodeSelector selector = url.QueryEscape (joined (range selector)).
Proof. unfold EncodeSelector, joined. by rewrite parts_foldl. Qed.

Lemma range_empty (selector : StringMap) :
  selector = nilMap \/ selector = mapOf ∅ -> range selector = [].
Proof.
  intros [-> | ->]; [reflexivity|]. cbn.
  apply Permutation_nil_r. rewrite (mapiter_perm ∅). by rewrite map_to_list_empty.
Qed.

Lemma contributions_joined (pairs : list (string * string)) :
  plain_pairs pairs ->
  strings.Split (joined pairs) "," =
    (if decide (pairs = []) then [""]
     else map (fun '(key, value) => key ++ "=" ++ value) pairs)
  /\ omap wellformed (map (fun '(key, value) => key ++ "=" ++ value) pairs) = pairs
  /\ filter (fun part => wellformed part = None)
            (map (fun '(key, value) => key ++ "=" ++ value) pairs) = [].
Proof.
  intros Hplain. split; [|split].
  - destruct (decide (pairs = [])) as [->|Hne]; [reflexivity|].
    unfold joined. apply (Split_Join ",").
    + by destruct pairs.
    + apply Forall_map. eapply Forall_impl; [exact Hplain|].
      intros [key value] [[_ Hk]%plain_spec [_ Hv]%plain_spec].
      rewrite !has_byte_app, Hk, Hv. reflexivity.
  - induction Hplain as [|[key value] pairs [Hk Hv] _ IH]; [reflexivity|].
    cbn [map omap list_omap]. rewrite (wellformed_pair _ _ Hk Hv).
    fold (omap wellformed (map (fun '(key, value) => key ++ "=" ++ value) pairs)).
    by rewrite IH.
  - induction Hplain as [|[key value] pairs [Hk Hv] _ IH]; [reflexivity|].
    cbn [map]. rewrite filter_cons, (wellformed_pair _ _ Hk Hv).
    rewrite decide_False by done. exact IH.
Qed.

Lemma joined_empty (pairs : list (string * string)) : joined pairs = "" -> pairs = [].
Proof.
  destruct pairs as [|[key value] pairs]; [done|]. unfold joined. cbn [map].
  intros Hj. apply (f_equal (strings.has_byte "=")) in Hj. revert Hj.
  destruct (map _ pairs); cbn [strings.Join];
    rewrite !has_byte_app; cbn; rewrite ?orb_true_r; discriminate.
Qed.

(** Decoding the joined pairs inserts them in order and logs nothing. *)
Lemma DecodeSelector_joined (pairs : list (string * string)) (w : World) :
  plain_pairs pairs ->
  DecodeSelector (joined pairs) w =
    (foldl (fun m '(key, value) => <[key := value]> m) ∅ pairs, w).
Proof.
  intros Hplain. destruct (contributions_joined pairs Hplain) as (Hsplit & Homap & Hskip).
  rewrite DecodeSelector_spec, Decode_spec_contributions.
  unfold contributions, skipped. rewrite Hsplit.
  destruct (decide (pairs = [])) as [->|Hne].
  - cbn. destruct w as [cs ls]. cbn. by rewrite app_nil_r.
  - rewrite Homap, Hskip.
    destruct (decide (joined pairs = "")) as [Hj|_];
      destruct w as [cs ls]; cbn; by rewrite app_nil_r.
Qed.

Lemma foldl_insert_map_to_list (pairs : list (string * string))
    (m : gmap string string) :
  pairs ≡ₚ map_to_list m ->
  foldl (fun m '(key, value) => <[key := value]> m) ∅ pairs = m.
Proof.
  intros Hperm. apply map_eq. intros key.
  assert (NoDup pairs.*1) as Hnodup
    by (rewrite Hperm; apply NoDup_fst_map_to_list).
  destruct (m !! key) as [value|] eqn:Hm.
  - apply elem_of_map_to_list in Hm. rewrite <- Hperm in Hm.
    apply list_elem_of_split in Hm as (pre & post & ->).
    apply foldl_insert_lookup_last.
    rewrite fmap_app, fmap_cons in Hnodup. cbn in Hnodup.
    apply NoDup_app in Hnodup as (_ & _ & Hpost).
    by apply NoDup_cons in Hpost as [Hnotin _].
  - rewrite foldl_insert_lookup_notin; [apply lookup_empty|].
    rewrite Hperm. intros ((k & v) & Hk & Hin)%list_elem_of_fmap. cbn in Hk. subst k.
    apply elem_of_map_to_list in Hin. congruence.
Qed.

(** What [EncodeSelector] returns has neither [,] nor [=] left in
    it, so [DecodeSelector] finds no entry in it. *)
Lemma DecodeSelector_EncodeSelector_empty (selector : StringMap) (w : World) :
  fst (DecodeSelector (EncodeSelector selector) w) = ∅.
Proof.
  rewrite DecodeSelector_spec. cbn [fst]. rewrite Decode_spec_contributions.
  unfold contributions, wellformed.
  destruct (QueryEscape_no_separator (joined (range selector))) as [Hc He].
  rewrite EncodeSelector_joined, (Split_no_sep _ _ Hc). cbn [omap list_omap].
  by rewrite (Split_no_sep _ _ He).
Qed.

(** C2, as the code has it: for a selector whose keys and values
    have no [=] and no [,], whatever the order in which the map is
    visited, [EncodeSelector] gives a string that [url.QueryUnescape]
    accepts, and [DecodeSelector] on the unescaped string gives the
    selector back and logs nothing.  On the escaped string itself
    [DecodeSelector] finds no entry. *)
Theorem DecodeSelector_QueryUnescape_EncodeSelector (S : gmap string string)
    (w : World) :
  map_Forall (fun key value => plain key = true /\ plain value = true) S ->
  (exists wire,
      url.QueryUnescape (EncodeSelector (mapOf S)) = Some wire
      /\ DecodeSelector wire w = (S, w))
  /\ fst (DecodeSelector (EncodeSelector (mapOf S)) w) = ∅.
Proof.
  intros Hplain. split; [|apply DecodeSelector_EncodeSelector_empty].
  exists (joined (mapiter S)). split.
  - rewrite EncodeSelector_joined. apply QueryUnescape_QueryEscape.
  - rewrite DecodeSelector_joined.
    + by rewrite (foldl_insert_map_to_list _ S (mapiter_perm S)).
    + unfold plain_pairs. rewrite (mapiter_perm S).
      apply map_Forall_to_list in Hplain.
      eapply Forall_impl; [exact Hplain|]. by intros [key value].
Qed.

(** C10: [EncodeSelector] on the nil mapping and on the empty mapping
    returns the empty string, and [DecodeSelector] on what it returns
    gives the empty mapping back. *)
Theorem EncodeSelector_empty_roundtrip (w : World) :
  EncodeSelector nilMap = ""
  /\ EncodeSelector (mapOf ∅) = ""
  /\ DecodeSelector (EncodeSelector nilMap) w = (∅, w)
  /\ DecodeSelector (EncodeSelector (mapOf ∅)) w = (∅, w).
Proof.
  assert (forall selector, selector = nilMap \/ selector = mapOf ∅ ->
                           EncodeSelector selector = "") as Hempty.
  { intros selector Hsel. by rewrite EncodeSelector_joined, (range_empty _ Hsel). }
  rewrite !Hempty by auto. done.
Qed.

(** ** More on the request pipeline *)

(** What [rawRequest] does once the transport has given a response. *)
Lemma rawRequest_on_response {T} `{Decodable T} (c : Client) (method path : string)
    (requestBody : option string) (target : option T) (w : World)
    (response : http.Response) :
  let request := withAuth c (http.mkRequest method (makeURL c path) requestBody) in
  NewRequest_error method (makeURL c path) = None ->
  httpClient c (calls w) request = inl response ->
  rawRequest c method path requestBody target w =
    match http.ReadBody response with
    | (body, Some err) => ((body, Some err, target), sent request w)
    | (body, None) =>
        if statusFailed (http.StatusCode response)
        then ((nilSlice, Some (statusError request response body), target),
              sent request w)
        else match target with
             | None => ((body, None, None), sent request w)
             | Some obj =>
                 ((body, snd (api_DecodeInto body obj), Some (fst (api_DecodeInto body obj))),
                  afterDecode body (snd (api_DecodeInto body obj)) (sent request w))
             end
    end.
Proof.
  intros request Hnew Hdo. rewrite (rawRequest_accepted _ _ _ _ _ _ Hnew).
  rewrite (doRequest_response _ _ _ _ Hdo). fold request.
  destruct (http.ReadBody response) as [body [err|]]; [reflexivity|].
  destruct (statusFailed (http.StatusCode response)); [reflexivity|].
  destruct target as [obj|]; [|reflexivity].
  destruct (api_DecodeInto body obj) as [obj' [derr|]]; reflexivity.
Qed.

(** X1: [doRequest] sends exactly one request and logs nothing; the
    request sent has the method, URL and body of the one given, and
    the credentials of the client when it has some. *)
Theorem doRequest_sends_one_request (c : Client) (request : http.Request) (w : World) :
  let w' := snd (doRequest c request w) in
  exists out,
    calls w' = app (calls w) [out]
    /\ logs w' = logs w
    /\ http.Method out = http.Method request
    /\ http.URL out = http.URL request
    /\ http.Body out = http.Body request
    /\ http.Authorization out =
         match auth c with
         | Some a => Some (User a, Password a)
         | None => http.Authorization request
         end.
Proof.
  intros w'. destruct (doRequest_calls c request w) as [Hcalls Hlogs].
  exists (withAuth c request). split; [exact Hcalls|]. split; [exact Hlogs|].
  unfold withAuth. destruct (auth c); done.
Qed.

(** X2: when [http.NewRequest] refuses the method or the URL,
    [rawRequest] returns its error with an empty slice, sends nothing,
    logs nothing and leaves the target alone; [GetPod] then returns
    the zero pod and [DeletePod] the error, when it is their URL that
    is refused. *)
Theorem rawRequest_refused {T} `{Decodable T} (c : Client) (method path : string)
    (requestBody : option string) (target : option T) (name : string) (w : World) :
  (forall err,
     NewRequest_error method (makeURL c path) = Some err ->
     rawRequest c method path requestBody target w = ((slice "", Some err, target), w))
  /\ (forall err,
        NewRequest_error "GET" (makeURL c ("pods/" ++ name)) = Some err ->
        GetPod c name w = ((zero, Some err), w))
  /\ (forall err,
        NewRequest_error "DELETE" (makeURL c ("pods/" ++ name)) = Some err ->
        DeletePod c name w = (Some err, w)).
Proof.
  split; [|split]; intros err Hnew.
  - unfold rawRequest, NewRequest. by rewrite Hnew.
  - unfold GetPod, bind, rawRequest, NewRequest. by rewrite Hnew.
  - unfold DeletePod, bind, rawRequest, NewRequest. by rewrite Hnew.
Qed.

(** X3: a transport error comes back as it is, with an empty slice
    that is not nil; the target is left alone and nothing is logged. *)
Theorem rawRequest_transport_error {T} `{Decodable T} (c : Client)
    (method path : string) (requestBody : option string) (target : option T)
    (w : World) (err : error) :
  let request := withAuth c (http.mkRequest method (makeURL c path) requestBody) in
  NewRequest_error method (makeURL c path) = None ->
  httpClient c (calls w) request = inr err ->
  rawRequest c method path requestBody target w
    = ((slice "", Some err, target), sent request w).
Proof.
  intros request Hnew Hdo. rewrite (rawRequest_accepted _ _ _ _ _ _ Hnew).
  by rewrite (doRequest_transport_error _ _ _ _ Hdo).
Qed.

(** X4: when reading the body fails, [rawRequest] returns what was
    read and the error of the read, whatever the status code, also
    one from 200 to 206; nothing is decoded and nothing is logged. *)
Theorem rawRequest_read_error {T} `{Decodable T} (c : Client)
    (method path : string) (requestBody : option string) (target : option T)
    (w : World) (response : http.Response) (body : ByteSlice) (err : error) :
  let request := withAuth c (http.mkRequest method (makeURL c path) requestBody) in
  NewRequest_error method (makeURL c path) = None ->
  httpClient c (calls w) request = inl response ->
  http.ReadBody response = (body, Some err) ->
  rawRequest c method path requestBody target w
    = ((body, Some err, target), sent request w).
Proof.
  intros request Hnew Hdo Hread.
  by rewrite (rawRequest_on_response _ _ _ _ _ _ _ Hnew Hdo), Hread.
Qed.

(** X5: on a status code outside 200..206 [rawRequest] decodes
    nothing: the target is as it was, nothing is logged, the slice is
    nil and the error has the code and the body in it. *)
Theorem rawRequest_failed_status {T} `{Decodable T} (c : Client)
    (method path : string) (requestBody : option string) (target : option T)
    (w : World) (response : http.Response) (body : ByteSlice) :
  let request := withAuth c (http.mkRequest method (makeURL c path) requestBody) in
  NewRequest_error method (makeURL c path) = None ->
  httpClient c (calls w) request = inl response ->
  http.ReadBody response = (body, None) ->
  ~ (200 <= http.StatusCode response <= 206)%Z ->
  exists err,
    rawRequest c method path requestBody target w
      = ((nilSlice, Some err, target), sent request w)
    /\ strings.Contains err (fmt.decimal (http.StatusCode response))
    /\ strings.Contains err (string_of body).
Proof.
  intros request Hnew Hdo Hread Hout.
  rewrite (rawRequest_on_response _ _ _ _ _ _ _ Hnew Hdo), Hread.
  destruct (statusFailed (http.StatusCode response)) eqn:Hf.
  - eexists. split; [reflexivity|].
    split; [apply statusError_has_code | apply statusError_has_body].
  - apply statusFailed_range in Hf. contradiction.
Qed.

(** X6: on a status code from 200 to 206 and a non-nil target,
    [rawRequest] logs the line [Failed to parse: ] with the body and
    a newline exactly when decoding fails, and nothing otherwise. *)
Theorem rawRequest_logs_decode_failure {T} `{Decodable T} (c : Client)
    (method path : string) (requestBody : option string) (obj : T)
    (w : World) (response : http.Response) (body : ByteSlice) :
  let request := withAuth c (http.mkRequest method (makeURL c path) requestBody) in
  let w' := snd (rawRequest c method path requestBody (Some obj) w) in
  NewRequest_error method (makeURL c path) = None ->
  httpClient c (calls w) request = inl response ->
  http.ReadBody response = (body, None) ->
  (200 <= http.StatusCode response <= 206)%Z ->
  calls w' = app (calls w) [request]
  /\ logs w' =
       match snd (api_DecodeInto body obj) with
       | Some _ => app (logs w) ["Failed to parse: " ++ string_of body ++ LF]
       | None => logs w
       end.
Proof.
  intros request w' Hnew Hdo Hread Hin. subst w'.
  rewrite (rawRequest_on_response _ _ _ _ _ _ _ Hnew Hdo), Hread.
  apply statusFailed_range in Hin. rewrite Hin. cbn [snd].
  destruct (snd (api_DecodeInto body obj)); done.
Qed.

(** X7: with a nil target and a status code from 200 to 206,
    [rawRequest] returns the body as it was read and no error, and
    logs nothing, whatever the body is. *)
Theorem rawRequest_nil_target {T} `{Decodable T} (c : Client)
    (method path : string) (requestBody : option string)
    (w : World) (response : http.Response) (body : ByteSlice) :
  let request := withAuth c (http.mkRequest method (makeURL c path) requestBody) in
  NewRequest_error method (makeURL c path) = None ->
  httpClient c (calls w) request = inl response ->
  http.ReadBody response = (body, None) ->
  (200 <= http.StatusCode response <= 206)%Z ->
  rawRequest c method path requestBody (None : option T) w
    = ((body, None, None), sent request w).
Proof.
  intros request Hnew Hdo Hread Hin.
  rewrite (rawRequest_on_response _ _ _ _ _ _ _ Hnew Hdo), Hread.
  apply statusFailed_range in Hin. by rewrite Hin.
Qed.

(** X8: [rawRequest] sends at most one request and logs at most one
    line, after what was sent and logged before; it logs only after
    it has sent. *)
Theorem rawRequest_at_most_one_request {T} `{Decodable T} (c : Client)
    (method path : string) (requestBody : option string) (target : option T)
    (w : World) :
  let w' := snd (rawRequest c method path requestBody target w) in
  (calls w' = calls w \/ exists request, calls w' = app (calls w) [request])
  /\ (logs w' = logs w \/ exists line, logs w' = app (logs w) [line])
  /\ (calls w' = calls w -> logs w' = logs w).
Proof.
  intros w'. subst w'.
  destruct (NewRequest_error method (makeURL c path)) as [err|] eqn:Hnew.
  { unfold rawRequest, NewRequest. rewrite Hnew. cbn. auto. }
  set (request := withAuth c (http.mkRequest method (makeURL c path) requestBody)).
  assert (forall l : list http.Request, app l [request] <> l) as Hgrow.
  { intros l Heq. apply (f_equal length) in Heq. rewrite length_app in Heq.
    cbn in Heq. lia. }
  destruct (httpClient c (calls w) request) as [response|err] eqn:Hdo.
  - rewrite (rawRequest_on_response _ _ _ _ _ _ _ Hnew Hdo).
    fold request.
    destruct (http.ReadBody response) as [body [err|]].
    { cbn. split; [eauto|]. split; [auto|]. intros Heq. by apply Hgrow in Heq. }
    destruct (statusFailed (http.StatusCode response)).
    { cbn. split; [eauto|]. split; [auto|]. intros Heq. by apply Hgrow in Heq. }
    destruct target as [obj|].
    + destruct (snd (api_DecodeInto body obj)); cbn;
        (split; [eauto|]; split; [eauto|]; intros Heq; by apply Hgrow in Heq).
    + cbn. split; [eauto|]. split; [auto|]. intros Heq. by apply Hgrow in Heq.
  - rewrite (rawRequest_accepted _ _ _ _ _ _ Hnew).
    rewrite (doRequest_transport_error _ _ _ _ Hdo). fold request. cbn.
    split; [eauto|]. split; [auto|]. intros Heq. by apply Hgrow in Heq.
Qed.

(** X9: for one client, different paths give different URLs. *)
Theorem makeURL_inj (c : Client) (path1 path2 : string) :
  path1 <> path2 -> makeURL c path1 <> makeURL c path2.
Proof.
  unfold makeURL. intros Hne Heq. apply Hne.
  apply (inj (String.append (host c))) in Heq.
  by apply (inj (String.append "/api/v1beta1/")) in Heq.
Qed.

(** X10: a client made by [New] sends its requests to the host it
    was made for, under [/api/v1beta1/], with the credentials it was
    given, or without any when it was given none. *)
Theorem New_client_requests {T} `{Decodable T} (host : string) (auth : option AuthInfo)
    (method path : string) (requestBody : option string) (target : option T)
    (w : World) :
  NewRequest_error method (host ++ "/api/v1beta1/" ++ path) = None ->
  calls (snd (rawRequest (New host auth) method path requestBody target w)) =
    app (calls w)
        [ {| http.Method := method;
             http.URL := host ++ "/api/v1beta1/" ++ path;
             http.Body := requestBody;
             http.Authorization :=
               match auth with
               | Some a => Some (User a, Password a)
               | None => None
               end |} ].
Proof.
  intros Hnew. rewrite (rawRequest_calls (New host auth) _ _ _ _ _ Hnew).
  unfold withAuth. cbn. destruct auth; reflexivity.
Qed.

(** ** More on the typed methods *)

(** A typed method on a request that is answered with a body read. *)
Ltac typed_call Hex Hread :=
  let Hnew := fresh "Hnew" in
  let Hdo := fresh "Hdo" in
  destruct Hex as [Hnew Hdo]; unfold bind;
  rewrite (rawRequest_on_response _ _ _ _ _ _ _ Hnew Hdo), Hread.

Lemma statusFailed_outside (code : Z) :
  ~ (200 <= code <= 206)%Z -> statusFailed code = true.
Proof.
  intros Hout. destruct (statusFailed code) eqn:Hf; [done|].
  by apply statusFailed_range in Hf.
Qed.

(** [ListPods] is [rawRequest] on the path for its selector. *)
Lemma ListPods_listPath (client : Client) (selector : StringMap) (path : string)
    (w : World) :
  listPath selector path ->
  ListPods client selector w =
    bind (rawRequest client "GET" path None (Some (zero : PodList)))
         (fun x => let '(_, err, result) := x in ret (deref result, err)) w.
Proof.
  unfold ListPods. intros [[[-> | ->] ->] | (m & -> & Hne & ->)].
  - reflexivity.
  - cbn. by rewrite map_size_empty.
  - cbn. destruct (size m) as [|n] eqn:Hsize; [|reflexivity].
    by apply map_size_empty_iff in Hsize.
Qed.

(** X11: when its request is accepted and answered with a status
    code from 200 to 206, each of [GetPod], [GetReplicationController]
    and [GetService] has sent one GET without body for [pods/],
    [replicationControllers/] and [services/] followed by the name,
    and returns the zero object as [api.DecodeInto] leaves it, with
    the error of the decoding. *)
Theorem Get_methods_success (client : Client) (name : string) (w : World) :
  (forall response body,
     exchange client w "GET" ("pods/" ++ name) None response ->
     http.ReadBody response = (body, None) ->
     (200 <= http.StatusCode response <= 206)%Z ->
     GetPod client name w =
       (let d := api_DecodeInto body (zero : Pod) in
        ((fst d, snd d),
         afterDecode body (snd d)
           (sent (requestFor client "GET" ("pods/" ++ name) None) w))))
  /\ (forall response body,
        exchange client w "GET" ("replicationControllers/" ++ name) None response ->
        http.ReadBody response = (body, None) ->
        (200 <= http.StatusCode response <= 206)%Z ->
        GetReplicationController client name w =
          (let d := api_DecodeInto body (zero : ReplicationController) in
           ((fst d, snd d),
            afterDecode body (snd d)
              (sent (requestFor client "GET" ("replicationControllers/" ++ name) None)
                    w))))
  /\ (forall response body,
        exchange client w "GET" ("services/" ++ name) None response ->
        http.ReadBody response = (body, None) ->
        (200 <= http.StatusCode response <= 206)%Z ->
        GetService client name w =
          (let d := api_DecodeInto body (zero : Service) in
           ((fst d, snd d),
            afterDecode body (snd d)
              (sent (requestFor client "GET" ("services/" ++ name) None) w)))).
Proof.
  unfold GetPod, GetReplicationController, GetService.
  repeat split; intros response body Hex Hread Hin%statusFailed_range;
    typed_call Hex Hread; rewrite Hin; reflexivity.
Qed.

(** X12: when [json.Marshal] succeeds and the request is accepted and
    answered with a status code from 200 to 206, each of [CreatePod],
    [CreateReplicationController] and [CreateService] has sent one
    POST for [pods], [replicationControllers] and [services] with the
    marshalled bytes as body, and returns the object decoded from the
    response. *)
Theorem Create_methods_success (client : Client) (w : World)
    (pod : Pod) (controller : ReplicationController) (svc : Service) :
  (forall b response body,
     json_Marshal pod = (b, None) ->
     exchange client w "POST" "pods" (Some (string_of b)) response ->
     http.ReadBody response = (body, None) ->
     (200 <= http.StatusCode response <= 206)%Z ->
     CreatePod client pod w =
       (let d := api_DecodeInto body (zero : Pod) in
        ((fst d, snd d),
         afterDecode body (snd d)
           (sent (requestFor client "POST" "pods" (Some (string_of b))) w))))
  /\ (forall b response body,
        json_Marshal controller = (b, None) ->
        exchange client w "POST" "replicationControllers" (Some (string_of b)) response ->
        http.ReadBody response = (body, None) ->
        (200 <= http.StatusCode response <= 206)%Z ->
        CreateReplicationController client controller w =
          (let d := api_DecodeInto body (zero : ReplicationController) in
           ((fst d, snd d),
            afterDecode body (snd d)
              (sent (requestFor client "POST" "replicationControllers"
                       (Some (string_of b))) w))))
  /\ (forall b response body,
        json_Marshal svc = (b, None) ->
        exchange client w "POST" "services" (Some (string_of b)) response ->
        http.ReadBody response = (body, None) ->
        (200 <= http.StatusCode response <= 206)%Z ->
        CreateService client svc w =
          (let d := api_DecodeInto body (zero : Service) in
           ((fst d, snd d),
            afterDecode body (snd d)
              (sent (requestFor client "POST" "services" (Some (string_of b))) w)))).
Proof.
  unfold CreatePod, CreateReplicationController, CreateService.
  repeat split; intros b response body Hmarshal Hex Hread Hin%statusFailed_range;
    rewrite Hmarshal; typed_call Hex Hread; rewrite Hin; reflexivity.
Qed.

(** X13: when [json.Marshal] succeeds and the request is accepted and
    answered with a status code from 200 to 206, each of [UpdatePod],
    [UpdateReplicationController] and [UpdateService] has sent one PUT
    for [pods/], [replicationControllers/] and [services/] followed by
    the [ID] of the object, with the marshalled bytes as body, and
    returns the object decoded from the response. *)
Theorem Update_methods_success (client : Client) (w : World)
    (pod : Pod) (controller : ReplicationController) (svc : Service) :
  (forall b response body,
     json_Marshal pod = (b, None) ->
     exchange client w "PUT" ("pods/" ++ ID pod) (Some (string_of b)) response ->
     http.ReadBody response = (body, None) ->
     (200 <= http.StatusCode response <= 206)%Z ->
     UpdatePod client pod w =
       (let d := api_DecodeInto body (zero : Pod) in
        ((fst d, snd d),
         afterDecode body (snd d)
           (sent (requestFor client "PUT" ("pods/" ++ ID pod) (Some (string_of b))) w))))
  /\ (forall b response body,
        json_Marshal controller = (b, None) ->
        exchange client w "PUT" ("replicationControllers/" ++ ID controller)
                 (Some (string_of b)) response ->
        http.ReadBody response = (body, None) ->
        (200 <= http.StatusCode response <= 206)%Z ->
        UpdateReplicationController client controller w =
          (let d := api_DecodeInto body (zero : ReplicationController) in
           ((fst d, snd d),
            afterDecode body (snd d)
              (sent (requestFor client "PUT" ("replicationControllers/" ++ ID controller)
                       (Some (string_of b))) w))))
  /\ (forall b response body,
        json_Marshal svc = (b, None) ->
        exchange client w "PUT" ("services/" ++ ID svc) (Some (string_of b)) response ->
        http.ReadBody response = (body, None) ->
        (200 <= http.StatusCode response <= 206)%Z ->
        UpdateService client svc w =
          (let d := api_DecodeInto body (zero : Service) in
           ((fst d, snd d),
            afterDecode body (snd d)
              (sent (requestFor client "PUT" ("services/" ++ ID svc)
                       (Some (string_of b))) w)))).
Proof.
  unfold UpdatePod, UpdateReplicationController, UpdateService.
  repeat split; intros b response body Hmarshal Hex Hread Hin%statusFailed_range;
    rewrite Hmarshal; typed_call Hex Hread; rewrite Hin; reflexivity.
Qed.

(** X14: when its request is accepted and answered with a status code
    from 200 to 206, each of [DeleteReplicationController] and
    [DeleteService] has sent one DELETE without body for
    [replicationControllers/] and [services/] followed by the name and
    returns no error, whatever the body of the response is; nothing
    is decoded or logged. *)
Theorem Delete_methods_success (client : Client) (name : string) (w : World) :
  (forall response body,
     exchange client w "DELETE" ("replicationControllers/" ++ name) None response ->
     http.ReadBody response = (body, None) ->
     (200 <= http.StatusCode response <= 206)%Z ->
     DeleteReplicationController client name w
       = (None, sent (requestFor client "DELETE" ("replicationControllers/" ++ name) None)
                     w))
  /\ (forall response body,
        exchange client w "DELETE" ("services/" ++ name) None response ->
        http.ReadBody response = (body, None) ->
        (200 <= http.StatusCode response <= 206)%Z ->
        DeleteService client name w
          = (None, sent (requestFor client "DELETE" ("services/" ++ name) None) w)).
Proof.
  unfold DeleteReplicationController, DeleteService.
  repeat split; intros response body Hex Hread Hin%statusFailed_range;
    typed_call Hex Hread; rewrite Hin; reflexivity.
Qed.

(** X15: when its request is accepted and answered with a status code
    outside 200..206, each method that lists, gets or deletes returns
    the error of [doRequest] for that request; the ones that list and
    get return the zero object with it, and nothing is decoded or
    logged. *)
Theorem Get_Delete_methods_failed_status (client : Client) (name : string)
    (selector : StringMap) (w : World) :
  let failed := fun method path response body =>
    Some (statusError (requestFor client method path None) response body) in
  let after := fun method path => sent (requestFor client method path None) w in
  let answered := fun method path response body =>
    exchange client w method path None response
    /\ http.ReadBody response = (body, None)
    /\ ~ (200 <= http.StatusCode response <= 206)%Z in
  (forall path response body,
     listPath selector path ->
     answered "GET" path response body ->
     ListPods client selector w
       = ((zero, failed "GET" path response body), after "GET" path))
  /\ (forall response body,
        answered "GET" ("pods/" ++ name) response body ->
        GetPod client name w
          = ((zero, failed "GET" ("pods/" ++ name) response body),
             after "GET" ("pods/" ++ name)))
  /\ (forall response body,
        answered "GET" ("replicationControllers/" ++ name) response body ->
        GetReplicationController client name w
          = ((zero, failed "GET" ("replicationControllers/" ++ name) response body),
             after "GET" ("replicationControllers/" ++ name)))
  /\ (forall response body,
        answered "GET" ("services/" ++ name) response body ->
        GetService client name w
          = ((zero, failed "GET" ("services/" ++ name) response body),
             after "GET" ("services/" ++ name)))
  /\ (forall response body,
        answered "DELETE" ("pods/" ++ name) response body ->
        DeletePod client name w
          = (failed "DELETE" ("pods/" ++ name) response body,
             after "DELETE" ("pods/" ++ name)))
  /\ (forall response body,
        answered "DELETE" ("replicationControllers/" ++ name) response body ->
        DeleteReplicationController client name w
          = (failed "DELETE" ("replicationControllers/" ++ name) response body,
             after "DELETE" ("replicationControllers/" ++ name)))
  /\ (forall response body,
        answered "DELETE" ("services/" ++ name) response body ->
        DeleteService client name w
          = (failed "DELETE" ("services/" ++ name) response body,
             after "DELETE" ("services/" ++ name))).
Proof.
  intros failed after answered.
  unfold GetPod, GetReplicationController, GetService,
    DeletePod, DeleteReplicationController, DeleteService.
  split.
  { intros path response body Hpath (Hex & Hread & Hout%statusFailed_outside).
    rewrite (ListPods_listPath _ _ _ _ Hpath).
    typed_call Hex Hread. rewrite Hout. reflexivity. }
  repeat split; intros response body (Hex & Hread & Hout%statusFailed_outside);
    typed_call Hex Hread; rewrite Hout; reflexivity.
Qed.

(** X16: when [json.Marshal] succeeds and the request is accepted and
    answered with a status code outside 200..206, each method that
    creates or updates returns the zero object and the error of
    [doRequest] for that request. *)
Theorem Create_Update_methods_failed_status (client : Client) (w : World)
    (pod : Pod) (controller : ReplicationController) (svc : Service) :
  let failed := fun method path b response body =>
    Some (statusError (requestFor client method path (Some (string_of b)))
                      response body) in
  let after := fun method path b =>
    sent (requestFor client method path (Some (string_of b))) w in
  let answered := fun method path b response body =>
    exchange client w method path (Some (string_of b)) response
    /\ http.ReadBody response = (body, None)
    /\ ~ (200 <= http.StatusCode response <= 206)%Z in
  (forall b response body,
     json_Marshal pod = (b, None) ->
     answered "POST" "pods" b response body ->
     CreatePod client pod w
       = ((zero, failed "POST" "pods" b response body), after "POST" "pods" b))
  /\ (forall b response body,
        json_Marshal pod = (b, None) ->
        answered "PUT" ("pods/" ++ ID pod) b response body ->
        UpdatePod client pod w
          = ((zero, failed "PUT" ("pods/" ++ ID pod) b response body),
             after "PUT" ("pods/" ++ ID pod) b))
  /\ (forall b response body,
        json_Marshal controller = (b, None) ->
        answered "POST" "replicationControllers" b response body ->
        CreateReplicationController client controller w
          = ((zero, failed "POST" "replicationControllers" b response body),
             after "POST" "replicationControllers" b))
  /\ (forall b response body,
        json_Marshal controller = (b, None) ->
        answered "PUT" ("replicationControllers/" ++ ID controller) b response body ->
        UpdateReplicationController client controller w
          = ((zero,
              failed "PUT" ("replicationControllers/" ++ ID controller) b response body),
             after "PUT" ("replicationControllers/" ++ ID controller) b))
  /\ (forall b response body,
        json_Marshal svc = (b, None) ->
        answered "POST" "services" b response body ->
        CreateService client svc w
          = ((zero, failed "POST" "services" b response body),
             after "POST" "services" b))
  /\ (forall b response body,
        json_Marshal svc = (b, None) ->
        answered "PUT" ("services/" ++ ID svc) b response body ->
        UpdateService client svc w
          = ((zero, failed "PUT" ("services/" ++ ID svc) b response body),
             after "PUT" ("services/" ++ ID svc) b)).
Proof.
  intros failed after answered.
  unfold CreatePod, UpdatePod, CreateReplicationController,
    UpdateReplicationController, CreateService, UpdateService.
  repeat split;
    intros b response body Hmarshal (Hex & Hread & Hout%statusFailed_outside);
    rewrite Hmarshal; typed_call Hex Hread; rewrite Hout; reflexivity.
Qed.

(** X17: when the transport fails on its request, each method that
    lists, gets or deletes returns the error of the transport as it
    is, with the zero object from the ones that return one; the
    request was sent and nothing is logged. *)
Theorem Get_Delete_methods_transport_error (client : Client) (name : string)
    (selector : StringMap) (w : World) :
  let after := fun method path => sent (requestFor client method path None) w in
  (forall path err,
     listPath selector path ->
     transportFails client w "GET" path None err ->
     ListPods client selector w = ((zero, Some err), after "GET" path))
  /\ (forall err,
        transportFails client w "GET" ("pods/" ++ name) None err ->
        GetPod client name w = ((zero, Some err), after "GET" ("pods/" ++ name)))
  /\ (forall err,
        transportFails client w "GET" ("replicationControllers/" ++ name) None err ->
        GetReplicationController client name w
          = ((zero, Some err), after "GET" ("replicationControllers/" ++ name)))
  /\ (forall err,
        transportFails client w "GET" ("services/" ++ name) None err ->
        GetService client name w
          = ((zero, Some err), after "GET" ("services/" ++ name)))
  /\ (forall err,
        transportFails client w "DELETE" ("pods/" ++ name) None err ->
        DeletePod client name w = (Some err, after "DELETE" ("pods/" ++ name)))
  /\ (forall err,
        transportFails client w "DELETE" ("replicationControllers/" ++ name) None err ->
        DeleteReplicationController client name w
          = (Some err, after "DELETE" ("replicationControllers/" ++ name)))
  /\ (forall err,
        transportFails client w "DELETE" ("services/" ++ name) None err ->
        DeleteService client name w
          = (Some err, after "DELETE" ("services/" ++ name))).
Proof.
  intros after.
  unfold GetPod, GetReplicationController, GetService,
    DeletePod, DeleteReplicationController, DeleteService.
  split.
  { intros path err Hpath [Hnew Hdo]. rewrite (ListPods_listPath _ _ _ _ Hpath).
    unfold bind.
    by rewrite (rawRequest_accepted _ _ _ _ _ _ Hnew),
      (doRequest_transport_error _ _ _ _ Hdo). }
  repeat split; intros err [Hnew Hdo]; unfold bind;
    by rewrite (rawRequest_accepted _ _ _ _ _ _ Hnew),
      (doRequest_transport_error _ _ _ _ Hdo).
Qed.

(** ** More on [strings.Split] *)

Lemma Split_nonempty (sep : ascii) (s : string) : strings.Split s sep <> [].
Proof.
  destruct s as [|c s]; [done|]. cbn.
  destruct (Ascii.eqb c sep); [done|]. by destruct (strings.Split s sep).
Qed.

Lemma Split_app (sep : ascii) (s1 s2 : string) :
  strings.Split (s1 ++ String sep s2) sep
  = app (strings.Split s1 sep) (strings.Split s2 sep).
Proof.
  induction s1 as [|c s1 IH].
  - change ("" ++ String sep s2) with (String sep s2). cbn.
    by rewrite Ascii.eqb_refl.
  - change (String c s1 ++ String sep s2) with (String c (s1 ++ String sep s2)).
    cbn [strings.Split]. rewrite IH.
    destruct (Ascii.eqb c sep); [reflexivity|].
    destruct (strings.Split s1 sep) as [|field fields] eqn:Hsplit; [|reflexivity].
    by apply Split_nonempty in Hsplit.
Qed.

Lemma Join_Split (sep : ascii) (s : string) :
  strings.Join (strings.Split s sep) (String sep "") = s.
Proof.
  induction s as [|c s IH]; [reflexivity|]. cbn [strings.Split].
  destruct (strings.Split s sep) as [|field fields] eqn:Hsplit.
  { by apply Split_nonempty in Hsplit. }
  destruct (Ascii.eqb c sep) eqn:Hc.
  - apply Ascii.eqb_eq in Hc as ->.
    change (strings.Join ("" :: field :: fields) (String sep ""))
      with (String sep (strings.Join (field :: fields) (String sep ""))).
    by rewrite IH.
  - destruct fields as [|field' fields].
    + cbn in *. by rewrite IH.
    + change (strings.Join (String c field :: field' :: fields) (String sep ""))
        with (String c (strings.Join (field :: field' :: fields) (String sep ""))).
      by rewrite IH.
Qed.

Lemma Split_fields_no_sep (sep : ascii) (s : string) :
  Forall (fun field => strings.has_byte sep field = false) (strings.Split s sep).
Proof.
  induction s as [|c s IH]; [by repeat constructor|]. cbn [strings.Split].
  destruct (Ascii.eqb c sep) eqn:Hc; [by constructor|].
  destruct (strings.Split s sep) as [|field fields]; [by repeat constructor; cbn; rewrite Hc|].
  apply Forall_cons in IH as [Hfield Hfields].
  constructor; [|done]. cbn. by rewrite Hc, Hfield.
Qed.

Lemma length_Split (sep : ascii) (s : string) :
  length (strings.Split s sep) = S (count_byte sep s).
Proof.
  induction s as [|c s IH]; [reflexivity|]. cbn [strings.Split count_byte].
  destruct (Ascii.eqb c sep); [cbn; by rewrite IH|].
  destruct (strings.Split s sep) as [|field fields]; [done|]. cbn in *. lia.
Qed.

(** ** More on [DecodeSelector] *)

Lemma foldl_insert_lookup_Some (pairs : list (string * string))
    (m : gmap string string) (key value : string) :
  foldl (fun m '(key, value) => <[key := value]> m) m pairs !! key = Some value ->
  (key, value) ∈ pairs \/ m !! key = Some value.
Proof.
  revert m. induction pairs as [|[k v] pairs IH]; intros m; cbn; [auto|].
  intros [Hin | Hm]%IH.
  - left. apply elem_of_cons. by right.
  - apply lookup_insert_Some in Hm as [[-> ->] | [_ Hm]].
    + left. apply elem_of_cons. by left.
    + by right.
Qed.

Lemma foldl_insert_union (pairs : list (string * string)) (m : gmap string string) :
  foldl (fun m '(key, value) => <[key := value]> m) m pairs
  = foldl (fun m '(key, value) => <[key := value]> m) ∅ pairs ∪ m.
Proof.
  revert m. induction pairs as [|[k v] pairs IH]; intros m; cbn.
  - by rewrite (left_id_L ∅ (∪)).
  - rewrite (IH (<[k := v]> m)), (IH (<[k := v]> ∅)).
    rewrite <- (assoc_L (∪)), <- insert_union_l.
    by rewrite (left_id_L ∅ (∪)).
Qed.

(** An entry of the decoded mapping is one of the parts of the wire
    string, and its key and value have no separator in them. *)
Lemma Decode_spec_entry (wire key value : string) :
  Decode_spec wire !! key = Some value ->
  (key ++ "=" ++ value) ∈ strings.Split wire ","
  /\ plain key = true /\ plain value = true.
Proof.
  rewrite Decode_spec_contributions.
  intros [Hin | Hempty]%foldl_insert_lookup_Some;
    [|by rewrite lookup_empty in Hempty].
  apply list_elem_of_omap in Hin as (part & Hpart & Hwf%wellformed_Some).
  assert (part = key ++ "=" ++ value) as ->.
  { rewrite <- (Join_Split "=" part), Hwf. reflexivity. }
  split; [exact Hpart|].
  pose proof (Split_fields_no_sep "=" (key ++ "=" ++ value)) as Heq.
  rewrite Hwf in Heq.
  apply Forall_cons in Heq as [Hk Heq]. apply Forall_cons in Heq as [Hv _].
  pose proof (Split_fields_no_sep "," wire) as Hcomma.
  rewrite Forall_forall in Hcomma. specialize (Hcomma _ Hpart).
  rewrite !has_byte_app in Hcomma.
  apply orb_false_iff in Hcomma as [Hkc Hcomma].
  apply orb_false_iff in Hcomma as [_ Hvc].
  split; apply plain_spec; done.
Qed.

(** X18: every entry of the mapping [DecodeSelector] returns is one
    of the parts of the selector between commas, as key, [=], value;
    so neither key nor value has [=] or [,] in it. *)
Theorem DecodeSelector_entry_from_part (selector : string) (w : World)
    (key value : string) :
  fst (DecodeSelector selector w) !! key = Some value ->
  (key ++ "=" ++ value) ∈ strings.Split selector ","
  /\ plain key = true /\ plain value = true.
Proof. rewrite DecodeSelector_spec. apply Decode_spec_entry. Qed.

(** A selector with plain keys and values comes back from the
    unescaped encoding. *)
Lemma unescaped_roundtrip (S : gmap string string) (w : World) :
  map_Forall (fun key value => plain key = true /\ plain value = true) S ->
  exists wire,
    url.QueryUnescape (EncodeSelector (mapOf S)) = Some wire
    /\ DecodeSelector wire w = (S, w).
Proof.
  intros Hplain. exists (joined (mapiter S)). split.
  - rewrite EncodeSelector_joined. apply QueryUnescape_QueryEscape.
  - rewrite DecodeSelector_joined.
    + by rewrite (foldl_insert_map_to_list _ S (mapiter_perm S)).
    + unfold plain_pairs. rewrite (mapiter_perm S).
      apply map_Forall_to_list in Hplain.
      eapply Forall_impl; [exact Hplain|]. by intros [key value].
Qed.

(** X19: whatever the wire string, the mapping [DecodeSelector]
    returns for it survives the round trip: encoded, unescaped and
    decoded again it is the same mapping, and nothing is logged. *)
Theorem DecodeSelector_result_roundtrips (selector : string) (w w' : World) :
  let S := fst (DecodeSelector selector w) in
  exists wire,
    url.QueryUnescape (EncodeSelector (mapOf S)) = Some wire
    /\ DecodeSelector wire w' = (S, w').
Proof.
  intros S. apply unescaped_roundtrip. subst S. rewrite DecodeSelector_spec.
  intros key value Hentry. by apply Decode_spec_entry in Hentry as (_ & Hk & Hv).
Qed.

(** X20: a selector without comma is one part: with exactly one [=]
    in it, it is decoded to the one entry of what is before the [=]
    to what is after it and nothing is logged; with none or with two
    or more, the mapping is empty and one line is logged. *)
Theorem DecodeSelector_one_part (selector : string) (w : World) :
  strings.has_byte "," selector = false ->
  selector <> "" ->
  (count_byte "=" selector = 1 ->
   exists key value,
     selector = key ++ "=" ++ value
     /\ DecodeSelector selector w = ({[ key := value ]}, w))
  /\ (count_byte "=" selector <> 1 ->
      DecodeSelector selector w = (∅, logged ("Invalid selector: " ++ selector) w)).
Proof.
  intros Hcomma Hne.
  assert (DecodeSelector selector w =
          DecodeSelector_parts selector [selector] ∅ w) as ->.
  { unfold DecodeSelector. destruct selector as [|c selector]; [done|].
    cbn [String.length Nat.eqb]. by rewrite (Split_no_sep _ _ Hcomma). }
  pose proof (length_Split "=" selector) as Hlen.
  pose proof (Join_Split "=" selector) as Hjoin.
  split.
  - intros Hone. rewrite Hone in Hlen.
    destruct (strings.Split selector "=") as [|key [|value [|extra pieces]]] eqn:Hsplit;
      try discriminate.
    exists key, value. split; [by rewrite <- Hjoin|].
    apply wellformed_Some in Hsplit.
    rewrite (DecodeSelector_parts_wellformed _ _ _ _ _ _ Hsplit). cbn.
    by rewrite insert_empty.
  - intros Hcount.
    assert (wellformed selector = None) as Hwf.
    { unfold wellformed.
      destruct (strings.Split selector "=") as [|key [|value [|extra pieces]]];
        try reflexivity.
      cbn in Hlen. lia. }
    by rewrite (DecodeSelector_parts_skipped _ _ _ _ Hwf).
Qed.

(** X21: decoding two wire strings put together with a comma gives
    the entries of both, those of the second one first: for a key in
    both, the value is the one of the second. *)
Theorem DecodeSelector_comma (selector1 selector2 : string) (w : World) :
  fst (DecodeSelector (selector1 ++ "," ++ selector2) w)
  = fst (DecodeSelector selector2 w) ∪ fst (DecodeSelector selector1 w).
Proof.
  rewrite !DecodeSelector_spec. cbn [fst]. rewrite !Decode_spec_contributions.
  unfold contributions.
  change (selector1 ++ "," ++ selector2) with (selector1 ++ String "," selector2).
  rewrite Split_app, omap_app, foldl_app. apply foldl_insert_union.
Qed.

(** ** More on [EncodeSelector] *)

Lemma QueryEscape_byte_escaped (c : ascii) (s : string) :
  all_bytes escaped_byte (url.QueryEscape (String c s))
  = all_bytes escaped_byte (url.QueryEscape s).
Proof.
  destruct c as [[] [] [] [] [] [] [] []]; reflexivity.
Qed.

Lemma QueryEscape_all_escaped (s : string) :
  all_bytes escaped_byte (url.QueryEscape s) = true.
Proof.
  induction s as [|c s IH]; [reflexivity|]. by rewrite QueryEscape_byte_escaped.
Qed.

Lemma all_bytes_has_byte (p : ascii -> bool) (s : string) (c : ascii) :
  all_bytes p s = true -> strings.has_byte c s = true -> p c = true.
Proof.
  induction s as [|d s IH]; [discriminate|]. cbn.
  intros [Hd Hs]%andb_true_iff [Hc | Hc]%orb_true_iff.
  - apply Ascii.eqb_eq in Hc as <-. exact Hd.
  - by apply IH.
Qed.

Lemma EncodeSelector_empty_inv (selector : StringMap) :
  EncodeSelector selector = "" -> selector = nilMap \/ selector = mapOf ∅.
Proof.
  rewrite EncodeSelector_joined. intros Hrange%QueryEscape_empty%joined_empty.
  destruct selector as [|m]; [by left|]. right. f_equal. cbn in Hrange.
  apply map_to_list_empty_iff. apply Permutation_nil_r.
  by rewrite <- (mapiter_perm m), Hrange.
Qed.

(** X22: what [EncodeSelector] returns is made of letters, digits,
    [-], [_], [.], [~], [%] and [+] only: no other byte is in it,
    so no [&], [=], [,], [#], [?], [/] or space, whatever the keys
    and values are. *)
Theorem EncodeSelector_only_escaped_bytes (selector : StringMap) (c : ascii) :
  escaped_byte c = false ->
  strings.has_byte c (EncodeSelector selector) = false.
Proof.
  intros Hc. destruct (strings.has_byte c (EncodeSelector selector)) eqn:Hhas; [|done].
  rewrite EncodeSelector_joined in Hhas.
  pose proof (all_bytes_has_byte _ _ _ (QueryEscape_all_escaped _) Hhas) as Hesc.
  congruence.
Qed.

(** X23: [EncodeSelector] returns the empty string for the nil and
    the empty mapping, and for no other. *)
Theorem EncodeSelector_empty_iff (selector : StringMap) :
  EncodeSelector selector = "" <-> selector = nilMap \/ selector = mapOf ∅.
Proof.
  split; [apply EncodeSelector_empty_inv|].
  intros Hsel. by rewrite EncodeSelector_joined, (range_empty _ Hsel).
Qed.

(** X24: for a mapping with one entry, [EncodeSelector] returns the
    key, [=] and the value, escaped; the order of the visit plays no
    part. *)
Theorem EncodeSelector_singleton (key value : string) :
  EncodeSelector (mapOf {[ key := value ]}) = url.QueryEscape (key ++ "=" ++ value).
Proof.
  rewrite EncodeSelector_joined. cbn [range].
  pose proof (mapiter_perm {[ key := value ]}) as Hperm.
  rewrite map_to_list_singleton in Hperm.
  apply Permutation_singleton_r in Hperm. by rewrite Hperm.
Qed.

(** X25: when its request is accepted and answered with a status
    code from 200 to 206, [ListPods] returns the zero list as
    [api.DecodeInto] leaves it, with the error of the decoding; the
    request is a GET for [pods], or for [pods?labels=] followed by a
    value that is not empty and has only letters, digits, [-], [_],
    [.], [~], [%] and [+] in it. *)
Theorem ListPods_success (client : Client) (selector : StringMap) (w : World)
    (path : string) (response : http.Response) (body : ByteSlice) :
  listPath selector path ->
  exchange client w "GET" path None response ->
  http.ReadBody response = (body, None) ->
  (200 <= http.StatusCode response <= 206)%Z ->
  ListPods client selector w =
    (let d := api_DecodeInto body (zero : PodList) in
     ((fst d, snd d),
      afterDecode body (snd d) (sent (requestFor client "GET" path None) w)))
  /\ (path = "pods"
      \/ exists labels,
           path = "pods?labels=" ++ labels
           /\ labels <> ""
           /\ all_bytes escaped_byte labels = true).
Proof.
  intros Hpath Hex Hread Hin%statusFailed_range. split.
  - rewrite (ListPods_listPath _ _ _ _ Hpath).
    typed_call Hex Hread. rewrite Hin. reflexivity.
  - destruct Hpath as [[_ ->] | (m & -> & Hne & ->)]; [by left|]. right.
    exists (EncodeSelector (mapOf m)). split; [reflexivity|]. split.
    + intros [Hnil | Hempty]%EncodeSelector_empty_inv; [done|].
      injection Hempty as ->. done.
    + rewrite EncodeSelector_joined. apply QueryEscape_all_escaped.
Qed.

Lemma count_byte_app (c : ascii) (x y : string) :
  count_byte c (x ++ y) = count_byte c x + count_byte c y.
Proof.
  induction x as [|d x IH]; [reflexivity|].
  change (String d x ++ y) with (String d (x ++ y)). cbn. rewrite IH. lia.
Qed.

Lemma has_byte_count (c : ascii) (s : string) :
  strings.has_byte c s = true -> 0 < count_byte c s.
Proof.
  induction s as [|d s IH]; [discriminate|]. cbn.
  destruct (Ascii.eqb d c); cbn; [lia|]. intros Hs. apply IH in Hs. lia.
Qed.

Lemma wellformed_None_count (part : string) :
  count_byte "=" part <> 1 -> wellformed part = None.
Proof.
  intros Hcount. pose proof (length_Split "=" part) as Hlen. unfold wellformed.
  destruct (strings.Split part "=") as [|key [|value [|extra pieces]]];
    try reflexivity.
  cbn in Hlen. lia.
Qed.

Lemma DecodeSelector_nonempty (selector : string) (w : World) :
  selector <> "" ->
  DecodeSelector selector w
  = DecodeSelector_parts selector (strings.Split selector ",") ∅ w.
Proof. by destruct selector. Qed.

(** X26: a key or a value with [=] in it does not survive: for the
    mapping with that one entry (and no comma in it), the unescaped
    encoding is decoded to the empty mapping, with one line logged. *)
Theorem DecodeSelector_drops_entry_with_equals (key value : string) (w : World) :
  strings.has_byte "," key = false ->
  strings.has_byte "," value = false ->
  strings.has_byte "=" key || strings.has_byte "=" value = true ->
  exists wire,
    url.QueryUnescape (EncodeSelector (mapOf {[ key := value ]})) = Some wire
    /\ wire = key ++ "=" ++ value
    /\ DecodeSelector wire w = (∅, logged ("Invalid selector: " ++ wire) w).
Proof.
  intros Hkc Hvc Heq. exists (key ++ "=" ++ value).
  split; [|split; [reflexivity|]].
  - rewrite EncodeSelector_joined. cbn [range].
    pose proof (mapiter_perm {[ key := value ]}) as Hperm.
    rewrite map_to_list_singleton in Hperm.
    apply Permutation_singleton_r in Hperm. rewrite Hperm.
    apply QueryUnescape_QueryEscape.
  - assert (strings.has_byte "," (key ++ "=" ++ value) = false) as Hcomma.
    { by rewrite !has_byte_app, Hkc, Hvc. }
    assert (wellformed (key ++ "=" ++ value) = None) as Hwf.
    { apply wellformed_None_count. rewrite !count_byte_app.
      change (count_byte "=" "=") with 1.
      apply orb_true_iff in Heq as [H'%has_byte_count | H'%has_byte_count]; lia. }
    rewrite DecodeSelector_nonempty by (by destruct key).
    rewrite (Split_no_sep _ _ Hcomma).
    by rewrite (DecodeSelector_parts_skipped _ _ _ _ Hwf).
Qed.

End client.

(** ** The theorems on a server and objects *)

(** A 404 with a body: the error has the code and the body in it. *)
Lemma doRequest_failed_status_witness :
  let c := Fixture.client 404 "404 Not Found" "no such pod" in
  ~ (200 <= 404 <= 206)%Z
  /\ exists err,
       fst (doRequest Fixture.goSyntax c (Fixture.get "pods/x") Fixture.w0)
         = (nilSlice, Some err)
       /\ strings.Contains err "404"
       /\ strings.Contains err "no such pod".
Proof.
  intros c. split; [lia|].
  refine (doRequest_failed_status Fixture.goSyntax c (Fixture.get "pods/x") Fixture.w0
           {| http.StatusCode := 404; http.Status := "404 Not Found";
              http.ReadBody := (slice "no such pod", None) |}
           (slice "no such pod") _ _ _);
    [reflexivity | reflexivity | cbn; lia].
Defined.

(** C1 as stated fails: on a 404 with the body [no such pod],
    [doRequest] returns an error and with it the nil slice, which is
    not the body. *)
Lemma doRequest_404_returns_nil_slice :
  let c := Fixture.client 404 "404 Not Found" "no such pod" in
  let result := fst (doRequest Fixture.goSyntax c (Fixture.get "pods/x") Fixture.w0) in
  snd result <> None
  /\ fst result = nilSlice
  /\ fst result <> slice "no such pod"
  /\ string_of (fst result) <> "no such pod".
Proof. cbn. repeat split; discriminate. Qed.

Lemma doRequest_success_iff_200_to_206_witness :
  let c := Fixture.client 206 "206 Partial Content" "part" in
  let result := fst (doRequest Fixture.goSyntax c (Fixture.get "pods/x") Fixture.w0) in
  (snd result = None <-> (200 <= 206 <= 206)%Z)
  /\ ((200 <= 206 <= 206)%Z -> result = (slice "part", None))
  /\ statusFailed 206 = false
  /\ (forall code, (207 <= code)%Z -> statusFailed code = true).
Proof.
  intros c result.
  refine (doRequest_success_iff_200_to_206 Fixture.goSyntax c (Fixture.get "pods/x")
           Fixture.w0
           {| http.StatusCode := 206; http.Status := "206 Partial Content";
              http.ReadBody := (slice "part", None) |}
           (slice "part") _ _); reflexivity.
Defined.

(** A body the decoder refuses, on a 200: the error of the decoder,
    and the body. *)
Lemma rawRequest_decodes_and_returns_body_witness :
  let c := Fixture.client 200 "200 OK" "garbage" in
  fst (rawRequest Fixture.goSyntax Fixture.NewRequest_error c "GET" "pods/x" None
         (Some ("old" : Fixture.Object)) Fixture.w0)
  = (slice "garbage", Some "invalid character", Some "old").
Proof.
  intros c.
  refine (rawRequest_decodes_and_returns_body Fixture.goSyntax Fixture.NewRequest_error
            (T := Fixture.Object) c "GET" "pods/x" None "old" Fixture.w0
            {| http.StatusCode := 200; http.Status := "200 OK";
               http.ReadBody := (slice "garbage", None) |}
            (slice "garbage") _ _ _ _); [reflexivity | reflexivity | reflexivity | cbn; lia].
Defined.

Lemma marshal_error_returned_without_request_witness :
  let c := Fixture.client 200 "200 OK" "x" in
  let cyclic : Fixture.Object := "cyclic" in
  let failed := (("" : Fixture.Object, Some "json: unsupported value"), Fixture.w0) in
  CreatePod Fixture.goSyntax Fixture.NewRequest_error c cyclic Fixture.w0 = failed
  /\ UpdatePod Fixture.goSyntax Fixture.NewRequest_error c cyclic Fixture.w0 = failed
  /\ CreateReplicationController Fixture.goSyntax Fixture.NewRequest_error c cyclic
       Fixture.w0 = failed
  /\ UpdateReplicationController Fixture.goSyntax Fixture.NewRequest_error c cyclic
       Fixture.w0 = failed
  /\ CreateService Fixture.goSyntax Fixture.NewRequest_error c cyclic Fixture.w0 = failed
  /\ UpdateService Fixture.goSyntax Fixture.NewRequest_error c cyclic Fixture.w0 = failed.
Proof.
  intros c cyclic failed.
  refine (marshal_error_returned_without_request Fixture.goSyntax Fixture.NewRequest_error
           (Pod := Fixture.Object) (ReplicationController := Fixture.Object)
           (Service := Fixture.Object) c Fixture.w0 cyclic cyclic cyclic
           nilSlice nilSlice nilSlice
           "json: unsupported value" "json: unsupported value" "json: unsupported value"
           _ _ _);
    reflexivity.
Defined.

Lemma DeletePod_sends_delete_witness :
  let c := Fixture.client 200 "200 OK" "" in
  let request :=
    {| http.Method := "DELETE";
       http.URL := "http://master/api/v1beta1/pods/name";
       http.Body := None;
       http.Authorization := None |} in
  (forall p, makeURL c p = "http://master" ++ "/api/v1beta1/" ++ p)
  /\ calls (snd (DeletePod Fixture.goSyntax Fixture.NewRequest_error c "name" Fixture.w0))
     = [request]
  /\ DeletePod Fixture.goSyntax Fixture.NewRequest_error c "name" Fixture.w0
     = (None, {| calls := [request]; logs := [] |}).
Proof.
  intros c request.
  destruct (DeletePod_sends_delete Fixture.goSyntax Fixture.NewRequest_error c "name"
              Fixture.w0 eq_refl) as (Hurl & Hcalls & Hnil).
  split; [exact Hurl|]. split; [exact Hcalls|].
  refine (Hnil {| http.StatusCode := 200; http.Status := "200 OK";
                  http.ReadBody := (slice "", None) |}
               (slice "") _ _ _); [reflexivity | reflexivity | cbn; lia].
Defined.

Lemma ListPods_path_witness :
  let c := Fixture.client 200 "200 OK" "" in
  calls (snd (ListPods Fixture.goSyntax Fixture.NewRequest_error Fixture.mapiter
                (PodList := Fixture.Object) c nilMap Fixture.w0))
    = [http.mkRequest "GET" "http://master/api/v1beta1/pods" None]
  /\ calls (snd (ListPods Fixture.goSyntax Fixture.NewRequest_error Fixture.mapiter
                   (PodList := Fixture.Object) c (mapOf (<["a" := "1"]> ∅)) Fixture.w0))
    = [http.mkRequest "GET" "http://master/api/v1beta1/pods?labels=a%3D1" None].
Proof.
  intros c. split.
  - refine (proj1 (ListPods_path Fixture.goSyntax Fixture.NewRequest_error
                     Fixture.mapiter (PodList := Fixture.Object) c nilMap Fixture.w0)
                  _ _); [by left | reflexivity].
  - refine (proj2 (ListPods_path Fixture.goSyntax Fixture.NewRequest_error
                     Fixture.mapiter (PodList := Fixture.Object) c
                     (mapOf (<["a" := "1"]> ∅)) Fixture.w0)
                  (<["a" := "1"]> ∅) _ _ _); [reflexivity | | reflexivity].
    intros Hempty. apply (f_equal (fun m : gmap string string => m !! "a")) in Hempty.
    rewrite lookup_insert_eq, lookup_empty in Hempty. discriminate.
Defined.

Lemma DecodeSelector_later_part_overwrites_witness :
  let result := fst (DecodeSelector "a=1,a=2" Fixture.w0) in
  result !! "a" = Some "2"
  /\ dom result = list_to_set (contributions "a=1,a=2").*1
  /\ size result = length (remove_dups (contributions "a=1,a=2").*1).
Proof.
  refine (DecodeSelector_later_part_overwrites "a=1,a=2" Fixture.w0 [] [] []
            "a=1" "a=2" "a" "1" "2" _ _ _ _);
    [reflexivity | reflexivity | reflexivity |].
  intros part value Hin. inversion Hin.
Defined.

(** C2 as stated fails: the selector with the one entry of [a] to [1]
    is encoded as [a%3D1], in which [DecodeSelector] finds no entry. *)
Lemma DecodeSelector_EncodeSelector_loses_entry :
  let S : gmap string string := <["a" := "1"]> ∅ in
  plain "a" = true /\ plain "1" = true
  /\ EncodeSelector Fixture.mapiter (mapOf S) = "a%3D1"
  /\ fst (DecodeSelector (EncodeSelector Fixture.mapiter (mapOf S)) Fixture.w0) <> S.
Proof.
  intros S. split; [reflexivity|]. split; [reflexivity|]. split.
  - vm_compute. reflexivity.
  - rewrite DecodeSelector_EncodeSelector_empty. intros Heq.
    apply (f_equal (fun m : gmap string string => m !! "a")) in Heq.
    subst S. rewrite lookup_empty, lookup_insert_eq in Heq. discriminate.
Qed.

Lemma DecodeSelector_QueryUnescape_EncodeSelector_witness :
  let S : gmap string string := <["a" := "1"]> (<["b" := "2"]> ∅) in
  (exists wire,
      url.QueryUnescape (EncodeSelector Fixture.mapiter (mapOf S)) = Some wire
      /\ DecodeSelector wire Fixture.w0 = (S, Fixture.w0))
  /\ fst (DecodeSelector (EncodeSelector Fixture.mapiter (mapOf S)) Fixture.w0) = ∅.
Proof.
  intros S.
  refine (DecodeSelector_QueryUnescape_EncodeSelector Fixture.mapiter _ S Fixture.w0 _).
  - intros m. reflexivity.
  - subst S. apply map_Forall_insert_2; [split; reflexivity|].
    apply map_Forall_insert_2; [split; reflexivity|].
    apply map_Forall_empty.
Defined.

Lemma EncodeSelector_empty_roundtrip_witness :
  EncodeSelector Fixture.mapiter nilMap = ""
  /\ EncodeSelector Fixture.mapiter (mapOf ∅) = ""
  /\ DecodeSelector (EncodeSelector Fixture.mapiter nilMap) Fixture.w0 = (∅, Fixture.w0)
  /\ DecodeSelector (EncodeSelector Fixture.mapiter (mapOf ∅)) Fixture.w0
     = (∅, Fixture.w0).
Proof.
  refine (EncodeSelector_empty_roundtrip Fixture.mapiter _ Fixture.w0).
  intros m. reflexivity.
Defined.

(** ** The library functions on the inputs of the specification *)

Example Split_parts : strings.Split "a=1,b" "," = ["a=1"; "b"].
Proof. reflexivity. Qed.

Example Split_empty : strings.Split "" "," = [""].
Proof. reflexivity. Qed.

Example Split_three_pieces : strings.Split "a=b=c" "=" = ["a"; "b"; "c"].
Proof. reflexivity. Qed.

Example Join_parts : strings.Join ["a=1"; "b=2"] "," = "a=1,b=2".
Proof. reflexivity. Qed.

Example QueryEscape_selector : url.QueryEscape "a=1,b c~" = "a%3D1%2Cb+c~".
Proof. reflexivity. Qed.

Example QueryUnescape_selector : url.QueryUnescape "a%3D1%2Cb+c~" = Some "a=1,b c~".
Proof. reflexivity. Qed.

Example QueryUnescape_refuses : url.QueryUnescape "a%3" = None.
Proof. reflexivity. Qed.

Example decimal_404 : fmt.decimal 404 = "404".
Proof. reflexivity. Qed.

(** ** The further theorems on servers and objects *)

Lemma rawRequest_refused_witness :
  let c := Fixture.client 200 "200 OK" "x" in
  Faults.NewRequest_error "GET" (makeURL c "pods/x") = None
  /\ exists err,
       Faults.NewRequest_error "GET" (makeURL c "pods/%zz") = Some err
       /\ rawRequest Fixture.goSyntax Faults.NewRequest_error c "GET" "pods/%zz" None
            (Some ("old" : Fixture.Object)) Fixture.w0
          = ((slice "", Some err, Some "old"), Fixture.w0)
       /\ GetPod Fixture.goSyntax Faults.NewRequest_error (Pod := Fixture.Object) c "%zz"
            Fixture.w0 = (("", Some err), Fixture.w0)
       /\ DeletePod Fixture.goSyntax Faults.NewRequest_error c "%zz" Fixture.w0
          = (Some err, Fixture.w0).
Proof.
  intros c. split; [reflexivity|].
  destruct (rawRequest_refused Fixture.goSyntax Faults.NewRequest_error
              (Pod := Fixture.Object) (T := Fixture.Object) c "GET" "pods/%zz" None
              (Some "old") "%zz" Fixture.w0) as (Hraw & Hget & Hdelete).
  eexists. split; [reflexivity|].
  split; [exact (Hraw _ eq_refl)|].
  split; [exact (Hget _ eq_refl) | exact (Hdelete _ eq_refl)].
Defined.

Lemma rawRequest_transport_error_witness :
  rawRequest Fixture.goSyntax Fixture.NewRequest_error Faults.unreachable "GET" "pods/x"
    None (Some ("old" : Fixture.Object)) Fixture.w0
  = ((slice "", Some "dial tcp: connection refused", Some "old"),
     {| calls := [Fixture.get "http://master/api/v1beta1/pods/x"]; logs := [] |}).
Proof.
  refine (rawRequest_transport_error Fixture.goSyntax Fixture.NewRequest_error
            (T := Fixture.Object) Faults.unreachable "GET" "pods/x" None (Some "old")
            Fixture.w0 "dial tcp: connection refused" _ _); reflexivity.
Defined.

Lemma rawRequest_read_error_witness :
  rawRequest Fixture.goSyntax Fixture.NewRequest_error (Faults.truncated 200 "{par")
    "GET" "pods/x" None (Some ("old" : Fixture.Object)) Fixture.w0
  = ((slice "{par", Some "unexpected EOF", Some "old"),
     {| calls := [Fixture.get "http://master/api/v1beta1/pods/x"]; logs := [] |}).
Proof.
  refine (rawRequest_read_error Fixture.goSyntax Fixture.NewRequest_error
            (T := Fixture.Object) (Faults.truncated 200 "{par") "GET" "pods/x" None
            (Some "old") Fixture.w0
            {| http.StatusCode := 200; http.Status := "200 OK";
               http.ReadBody := (slice "{par", Some "unexpected EOF") |}
            (slice "{par") "unexpected EOF" _ _ _); reflexivity.
Defined.

Lemma rawRequest_failed_status_witness :
  exists err,
    rawRequest Fixture.goSyntax Fixture.NewRequest_error
      (Fixture.client 500 "500 Internal Server Error" "boom") "GET" "pods/x" None
      (Some ("old" : Fixture.Object)) Fixture.w0
    = ((nilSlice, Some err, Some "old"),
       {| calls := [Fixture.get "http://master/api/v1beta1/pods/x"]; logs := [] |})
    /\ strings.Contains err "500"
    /\ strings.Contains err "boom".
Proof.
  refine (rawRequest_failed_status Fixture.goSyntax Fixture.NewRequest_error
            (T := Fixture.Object)
            (Fixture.client 500 "500 Internal Server Error" "boom") "GET" "pods/x" None
            (Some "old") Fixture.w0
            {| http.StatusCode := 500; http.Status := "500 Internal Server Error";
               http.ReadBody := (slice "boom", None) |}
            (slice "boom") _ _ _ _); [reflexivity | reflexivity | reflexivity | cbn; lia].
Defined.

Lemma rawRequest_logs_decode_failure_witness :
  let w' := snd (rawRequest Fixture.goSyntax Fixture.NewRequest_error
                   (Fixture.client 200 "200 OK" "garbage") "GET" "pods/x" None
                   (Some ("old" : Fixture.Object)) Fixture.w0) in
  calls w' = [Fixture.get "http://master/api/v1beta1/pods/x"]
  /\ logs w' = ["Failed to parse: garbage" ++ LF].
Proof.
  refine (rawRequest_logs_decode_failure Fixture.goSyntax Fixture.NewRequest_error
            (T := Fixture.Object) (Fixture.client 200 "200 OK" "garbage") "GET" "pods/x"
            None "old" Fixture.w0
            {| http.StatusCode := 200; http.Status := "200 OK";
               http.ReadBody := (slice "garbage", None) |}
            (slice "garbage") _ _ _ _); [reflexivity | reflexivity | reflexivity | cbn; lia].
Defined.

Lemma rawRequest_nil_target_witness :
  rawRequest Fixture.goSyntax Fixture.NewRequest_error
    (Fixture.client 204 "204 No Content" "garbage") "DELETE" "pods/x" None
    nilTarget Fixture.w0
  = ((slice "garbage", None, None),
     {| calls := [http.mkRequest "DELETE" "http://master/api/v1beta1/pods/x" None];
        logs := [] |}).
Proof.
  refine (rawRequest_nil_target Fixture.goSyntax Fixture.NewRequest_error
            (T := Empty_set) (Fixture.client 204 "204 No Content" "garbage")
            "DELETE" "pods/x" None Fixture.w0
            {| http.StatusCode := 204; http.Status := "204 No Content";
               http.ReadBody := (slice "garbage", None) |}
            (slice "garbage") _ _ _ _); [reflexivity | reflexivity | reflexivity | cbn; lia].
Defined.

Lemma makeURL_inj_witness :
  makeURL (Fixture.client 200 "200 OK" "") "pods/a"
  <> makeURL (Fixture.client 200 "200 OK" "") "pods/b".
Proof.
  refine (makeURL_inj (Fixture.client 200 "200 OK" "") "pods/a" "pods/b" _).
  discriminate.
Defined.

Lemma New_client_requests_witness :
  let transport := fun _ : bool => Fixture.answers 200 "200 OK" "" in
  let auth := Some {| User := "admin"; Password := "secret" |} in
  calls (snd (rawRequest Fixture.goSyntax Fixture.NewRequest_error
                (New transport "https://master" auth) "GET" "pods/x" None
                (Some ("old" : Fixture.Object)) Fixture.w0))
  = [ {| http.Method := "GET";
         http.URL := "https://master/api/v1beta1/pods/x";
         http.Body := None;
         http.Authorization := Some ("admin", "secret") |} ].
Proof.
  intros transport auth.
  refine (New_client_requests Fixture.goSyntax Fixture.NewRequest_error transport
            (T := Fixture.Object) "https://master" auth "GET" "pods/x" None
            (Some "old") Fixture.w0 _).
  reflexivity.
Defined.

Lemma Get_methods_success_witness :
  let c := Fixture.client 200 "200 OK" "web" in
  let after := fun path =>
    {| calls := [Fixture.get ("http://master/api/v1beta1/" ++ path)]; logs := [] |} in
  GetPod Fixture.goSyntax Fixture.NewRequest_error (Pod := Fixture.Object) c "x"
    Fixture.w0 = (("web", None), after "pods/x")
  /\ GetReplicationController Fixture.goSyntax Fixture.NewRequest_error
       (ReplicationController := Fixture.Object) c "x" Fixture.w0
     = (("web", None), after "replicationControllers/x")
  /\ GetService Fixture.goSyntax Fixture.NewRequest_error (Service := Fixture.Object)
       c "x" Fixture.w0 = (("web", None), after "services/x").
Proof.
  intros c after.
  destruct (Get_methods_success Fixture.goSyntax Fixture.NewRequest_error
              (Pod := Fixture.Object) (ReplicationController := Fixture.Object)
              (Service := Fixture.Object) c "x" Fixture.w0)
    as (Hpod & Hcontroller & Hsvc).
  pose (response := {| http.StatusCode := 200; http.Status := "200 OK";
                       http.ReadBody := (slice "web", None) |}).
  split; [|split].
  - refine (Hpod response (slice "web") _ _ _);
      [split; reflexivity | reflexivity | cbn; lia].
  - refine (Hcontroller response (slice "web") _ _ _);
      [split; reflexivity | reflexivity | cbn; lia].
  - refine (Hsvc response (slice "web") _ _ _);
      [split; reflexivity | reflexivity | cbn; lia].
Defined.

Lemma Create_methods_success_witness :
  let c := Fixture.client 200 "200 OK" "stored" in
  let after := fun path =>
    {| calls := [http.mkRequest "POST" ("http://master/api/v1beta1/" ++ path) (Some "web")];
       logs := [] |} in
  CreatePod Fixture.goSyntax Fixture.NewRequest_error (Pod := Fixture.Object) c "web"
    Fixture.w0 = (("stored", None), after "pods")
  /\ CreateReplicationController Fixture.goSyntax Fixture.NewRequest_error
       (ReplicationController := Fixture.Object) c "web" Fixture.w0
     = (("stored", None), after "replicationControllers")
  /\ CreateService Fixture.goSyntax Fixture.NewRequest_error (Service := Fixture.Object)
       c "web" Fixture.w0 = (("stored", None), after "services").
Proof.
  intros c after.
  destruct (Create_methods_success Fixture.goSyntax Fixture.NewRequest_error
              (Pod := Fixture.Object) (ReplicationController := Fixture.Object)
              (Service := Fixture.Object) c Fixture.w0 "web" "web" "web")
    as (Hpod & Hcontroller & Hsvc).
  pose (response := {| http.StatusCode := 200; http.Status := "200 OK";
                       http.ReadBody := (slice "stored", None) |}).
  split; [|split].
  - refine (Hpod (slice "web") response (slice "stored") _ _ _ _);
      [reflexivity | split; reflexivity | reflexivity | cbn; lia].
  - refine (Hcontroller (slice "web") response (slice "stored") _ _ _ _);
      [reflexivity | split; reflexivity | reflexivity | cbn; lia].
  - refine (Hsvc (slice "web") response (slice "stored") _ _ _ _);
      [reflexivity | split; reflexivity | reflexivity | cbn; lia].
Defined.

Lemma Update_methods_success_witness :
  let c := Fixture.client 200 "200 OK" "stored" in
  let after := fun path =>
    {| calls := [http.mkRequest "PUT" ("http://master/api/v1beta1/" ++ path) (Some "web")];
       logs := [] |} in
  UpdatePod Fixture.goSyntax Fixture.NewRequest_error (Pod := Fixture.Object) c "web"
    Fixture.w0 = (("stored", None), after "pods/web")
  /\ UpdateReplicationController Fixture.goSyntax Fixture.NewRequest_error
       (ReplicationController := Fixture.Object) c "web" Fixture.w0
     = (("stored", None), after "replicationControllers/web")
  /\ UpdateService Fixture.goSyntax Fixture.NewRequest_error (Service := Fixture.Object)
       c "web" Fixture.w0 = (("stored", None), after "services/web").
Proof.
  intros c after.
  destruct (Update_methods_success Fixture.goSyntax Fixture.NewRequest_error
              (Pod := Fixture.Object) (ReplicationController := Fixture.Object)
              (Service := Fixture.Object) c Fixture.w0 "web" "web" "web")
    as (Hpod & Hcontroller & Hsvc).
  pose (response := {| http.StatusCode := 200; http.Status := "200 OK";
                       http.ReadBody := (slice "stored", None) |}).
  split; [|split].
  - refine (Hpod (slice "web") response (slice "stored") _ _ _ _);
      [reflexivity | split; reflexivity | reflexivity | cbn; lia].
  - refine (Hcontroller (slice "web") response (slice "stored") _ _ _ _);
      [reflexivity | split; reflexivity | reflexivity | cbn; lia].
  - refine (Hsvc (slice "web") response (slice "stored") _ _ _ _);
      [reflexivity | split; reflexivity | reflexivity | cbn; lia].
Defined.

Lemma Delete_methods_success_witness :
  let c := Fixture.client 204 "204 No Content" "garbage" in
  let after := fun path =>
    {| calls := [http.mkRequest "DELETE" ("http://master/api/v1beta1/" ++ path) None];
       logs := [] |} in
  DeleteReplicationController Fixture.goSyntax Fixture.NewRequest_error c "x" Fixture.w0
    = (None, after "replicationControllers/x")
  /\ DeleteService Fixture.goSyntax Fixture.NewRequest_error c "x" Fixture.w0
    = (None, after "services/x").
Proof.
  intros c after.
  destruct (Delete_methods_success Fixture.goSyntax Fixture.NewRequest_error c "x"
              Fixture.w0) as (Hcontroller & Hsvc).
  pose (response := {| http.StatusCode := 204; http.Status := "204 No Content";
                       http.ReadBody := (slice "garbage", None) |}).
  split.
  - refine (Hcontroller response (slice "garbage") _ _ _);
      [split; reflexivity | reflexivity | cbn; lia].
  - refine (Hsvc response (slice "garbage") _ _ _);
      [split; reflexivity | reflexivity | cbn; lia].
Defined.

Lemma Get_Delete_methods_failed_status_witness :
  let c := Fixture.client 404 "404 Not Found" "no such pod" in
  let selector := mapOf (<["a" := "1"]> ∅) in
  exists err1 err2 err3,
    ListPods Fixture.goSyntax Fixture.NewRequest_error Fixture.mapiter
      (PodList := Fixture.Object) c selector Fixture.w0
    = (("", Some err1),
       {| calls := [Fixture.get "http://master/api/v1beta1/pods?labels=a%3D1"];
          logs := [] |})
    /\ GetPod Fixture.goSyntax Fixture.NewRequest_error (Pod := Fixture.Object) c "x"
         Fixture.w0
       = (("", Some err2),
          {| calls := [Fixture.get "http://master/api/v1beta1/pods/x"]; logs := [] |})
    /\ DeletePod Fixture.goSyntax Fixture.NewRequest_error c "x" Fixture.w0
       = (Some err3,
          {| calls := [http.mkRequest "DELETE" "http://master/api/v1beta1/pods/x" None];
             logs := [] |})
    /\ strings.Contains err2 "404"
    /\ strings.Contains err2 "no such pod".
Proof.
  intros c selector.
  destruct (Get_Delete_methods_failed_status Fixture.goSyntax Fixture.NewRequest_error
              Fixture.mapiter (PodList := Fixture.Object) (Pod := Fixture.Object)
              (ReplicationController := Fixture.Object) (Service := Fixture.Object)
              c "x" selector Fixture.w0)
    as (Hlist & Hget & _ & _ & Hdelete & _).
  pose (response := {| http.StatusCode := 404; http.Status := "404 Not Found";
                       http.ReadBody := (slice "no such pod", None) |}).
  assert (~ (200 <= http.StatusCode response <= 206)%Z) as Hout by (cbn; lia).
  assert (<["a" := "1"]> ∅ <> (∅ : gmap string string)) as Hne.
  { intros Hempty. apply (f_equal (fun m : gmap string string => m !! "a")) in Hempty.
    rewrite lookup_insert_eq, lookup_empty in Hempty. discriminate. }
  do 3 eexists. split; [|split; [|split; [|split]]].
  - refine (Hlist "pods?labels=a%3D1" response (slice "no such pod") _ _).
    + right. exists (<["a" := "1"]> ∅). split; [reflexivity|]. split; [exact Hne|].
      reflexivity.
    + split; [split; reflexivity|]. split; [reflexivity | exact Hout].
  - refine (Hget response (slice "no such pod") _).
    split; [split; reflexivity|]. split; [reflexivity | exact Hout].
  - refine (Hdelete response (slice "no such pod") _).
    split; [split; reflexivity|]. split; [reflexivity | exact Hout].
  - exact (statusError_has_code Fixture.goSyntax _ response (slice "no such pod")).
  - exact (statusError_has_body Fixture.goSyntax _ response (slice "no such pod")).
Defined.

Lemma Create_Update_methods_failed_status_witness :
  let c := Fixture.client 500 "500 Internal Server Error" "boom" in
  exists err1 err2,
    CreatePod Fixture.goSyntax Fixture.NewRequest_error (Pod := Fixture.Object) c "web"
      Fixture.w0
    = (("", Some err1),
       {| calls := [http.mkRequest "POST" "http://master/api/v1beta1/pods" (Some "web")];
          logs := [] |})
    /\ UpdateService Fixture.goSyntax Fixture.NewRequest_error
         (Service := Fixture.Object) c "web" Fixture.w0
       = (("", Some err2),
          {| calls := [http.mkRequest "PUT" "http://master/api/v1beta1/services/web"
                         (Some "web")];
             logs := [] |})
    /\ strings.Contains err1 "500"
    /\ strings.Contains err1 "boom".
Proof.
  intros c.
  destruct (Create_Update_methods_failed_status Fixture.goSyntax
              Fixture.NewRequest_error
              (Pod := Fixture.Object) (ReplicationController := Fixture.Object)
              (Service := Fixture.Object) c Fixture.w0 "web" "web" "web")
    as (Hcreate & _ & _ & _ & _ & Hupdate).
  pose (response := {| http.StatusCode := 500;
                       http.Status := "500 Internal Server Error";
                       http.ReadBody := (slice "boom", None) |}).
  assert (~ (200 <= http.StatusCode response <= 206)%Z) as Hout by (cbn; lia).
  do 2 eexists. split; [|split; [|split]].
  - refine (Hcreate (slice "web") response (slice "boom") _ _); [reflexivity|].
    split; [split; reflexivity|]. split; [reflexivity | exact Hout].
  - refine (Hupdate (slice "web") response (slice "boom") _ _); [reflexivity|].
    split; [split; reflexivity|]. split; [reflexivity | exact Hout].
  - exact (statusError_has_code Fixture.goSyntax _ response (slice "boom")).
  - exact (statusError_has_body Fixture.goSyntax _ response (slice "boom")).
Defined.

Lemma Get_Delete_methods_transport_error_witness :
  ListPods Fixture.goSyntax Fixture.NewRequest_error Fixture.mapiter
    (PodList := Fixture.Object) Faults.unreachable nilMap Fixture.w0
  = (("", Some "dial tcp: connection refused"),
     {| calls := [Fixture.get "http://master/api/v1beta1/pods"]; logs := [] |})
  /\ GetService Fixture.goSyntax Fixture.NewRequest_error (Service := Fixture.Object)
       Faults.unreachable "x" Fixture.w0
  = (("", Some "dial tcp: connection refused"),
     {| calls := [Fixture.get "http://master/api/v1beta1/services/x"]; logs := [] |})
  /\ DeleteReplicationController Fixture.goSyntax Fixture.NewRequest_error
       Faults.unreachable "x" Fixture.w0
  = (Some "dial tcp: connection refused",
     {| calls := [http.mkRequest "DELETE"
                    "http://master/api/v1beta1/replicationControllers/x" None];
        logs := [] |}).
Proof.
  destruct (Get_Delete_methods_transport_error Fixture.goSyntax
              Fixture.NewRequest_error Fixture.mapiter
              (PodList := Fixture.Object) (Pod := Fixture.Object)
              (ReplicationController := Fixture.Object) (Service := Fixture.Object)
              Faults.unreachable "x" nilMap Fixture.w0)
    as (Hlist & _ & _ & Hget & _ & Hdelete & _).
  split; [|split].
  - refine (Hlist "pods" "dial tcp: connection refused" _ _).
    + left. split; [by left | reflexivity].
    + split; reflexivity.
  - refine (Hget "dial tcp: connection refused" _). split; reflexivity.
  - refine (Hdelete "dial tcp: connection refused" _). split; reflexivity.
Defined.

Lemma DecodeSelector_entry_from_part_witness :
  fst (DecodeSelector "a=1,b" Fixture.w0) !! "a" = Some "1"
  /\ "a=1" ∈ strings.Split "a=1,b" ","
  /\ plain "a" = true /\ plain "1" = true.
Proof.
  assert (fst (DecodeSelector "a=1,b" Fixture.w0) !! "a" = Some "1") as Hentry
    by reflexivity.
  split; [exact Hentry|].
  exact (DecodeSelector_entry_from_part "a=1,b" Fixture.w0 "a" "1" Hentry).
Defined.

Lemma DecodeSelector_result_roundtrips_witness :
  let S := fst (DecodeSelector "a=1,b,c=2" Fixture.w0) in
  exists wire,
    url.QueryUnescape (EncodeSelector Fixture.mapiter (mapOf S)) = Some wire
    /\ DecodeSelector wire Fixture.w0 = (S, Fixture.w0).
Proof.
  refine (DecodeSelector_result_roundtrips Fixture.mapiter _ "a=1,b,c=2"
            Fixture.w0 Fixture.w0).
  intros m. reflexivity.
Defined.

Lemma DecodeSelector_one_part_witness :
  (count_byte "=" "a=1" = 1 ->
   exists key value,
     "a=1" = key ++ "=" ++ value
     /\ DecodeSelector "a=1" Fixture.w0 = ({[ key := value ]}, Fixture.w0))
  /\ (count_byte "=" "a=1" <> 1 ->
      DecodeSelector "a=1" Fixture.w0
      = (∅, logged ("Invalid selector: " ++ "a=1") Fixture.w0)).
Proof.
  refine (DecodeSelector_one_part "a=1" Fixture.w0 _ _); [reflexivity | discriminate].
Defined.

Lemma EncodeSelector_only_escaped_bytes_witness :
  strings.has_byte "&"
    (EncodeSelector Fixture.mapiter (mapOf (<["a&b" := "c d"]> ∅))) = false.
Proof.
  refine (EncodeSelector_only_escaped_bytes Fixture.mapiter
            (mapOf (<["a&b" := "c d"]> ∅)) "&" _).
  reflexivity.
Defined.

Lemma EncodeSelector_empty_iff_witness :
  EncodeSelector Fixture.mapiter (mapOf (<["a" := "1"]> ∅)) = ""
  <-> mapOf (<["a" := "1"]> ∅) = nilMap \/ mapOf (<["a" := "1"]> ∅) = mapOf ∅.
Proof.
  refine (EncodeSelector_empty_iff Fixture.mapiter _ (mapOf (<["a" := "1"]> ∅))).
  intros m. reflexivity.
Defined.

Lemma EncodeSelector_singleton_witness :
  EncodeSelector Fixture.mapiter (mapOf {[ "tier" := "front end" ]})
  = "tier%3Dfront+end".
Proof.
  refine (EncodeSelector_singleton Fixture.mapiter _ "tier" "front end").
  intros m. reflexivity.
Defined.

Lemma ListPods_success_witness :
  let c := Fixture.client 200 "200 OK" "web,db" in
  let selector := mapOf (<["tier" := "front end"]> ∅) in
  let path := "pods?labels=tier%3Dfront+end" in
  ListPods Fixture.goSyntax Fixture.NewRequest_error Fixture.mapiter
    (PodList := Fixture.Object) c selector Fixture.w0
  = (("web,db", None),
     {| calls := [Fixture.get ("http://master/api/v1beta1/" ++ path)]; logs := [] |})
  /\ (path = "pods"
      \/ exists labels,
           path = "pods?labels=" ++ labels
           /\ labels <> ""
           /\ all_bytes escaped_byte labels = true).
Proof.
  intros c selector path.
  refine (ListPods_success Fixture.goSyntax Fixture.NewRequest_error Fixture.mapiter _
            (PodList := Fixture.Object) c selector Fixture.w0 path
            {| http.StatusCode := 200; http.Status := "200 OK";
               http.ReadBody := (slice "web,db", None) |}
            (slice "web,db") _ _ _ _);
    [intros m; reflexivity | | split; reflexivity | reflexivity | cbn; lia].
  right. exists (<["tier" := "front end"]> ∅). split; [reflexivity|]. split; [|reflexivity].
  intros Hempty. apply (f_equal (fun m : gmap string string => m !! "tier")) in Hempty.
  rewrite lookup_insert_eq, lookup_empty in Hempty. discriminate.
Defined.

Lemma DecodeSelector_drops_entry_with_equals_witness :
  exists wire,
    url.QueryUnescape (EncodeSelector Fixture.mapiter (mapOf {[ "expr" := "a=b" ]}))
      = Some wire
    /\ wire = "expr=a=b"
    /\ DecodeSelector wire Fixture.w0
       = (∅, logged ("Invalid selector: " ++ wire) Fixture.w0).
Proof.
  refine (DecodeSelector_drops_entry_with_equals Fixture.mapiter _ "expr" "a=b"
            Fixture.w0 _ _ _);
    [intros m; reflexivity | reflexivity | reflexivity | reflexivity].
Defined.
